(** * Local (rule-based) key-point ranking and quiz synthesis

    Shallow embedding of the local path of [extract_key_points] and
    [generate_quiz] from [backend/app/nlp.py] (the path taken when no OpenAI
    client is configured), with the properties of the key-point ranker and of
    the quiz synthesizer stated and proved on it.

    - Python [str] values are [string]s of 8-bit code points (Latin-1), with
      [str.isspace] and [str.lower] as Python defines them on these code
      points; [int] values are [Z]; Python lists are [list]s; Python sets are
      [gset]s.
    - The random source is an arbitrary stream [draw : nat → nat], read
      through a cursor that every random call advances; [randbelow n] reduces
      the value read modulo [n], so that every sequence of choices the random
      module can make is the image of some stream.
    - A computation of [generate_quiz] ends with a value, with a raised
      exception, or with no outcome: the [while] loop is bounded by [fuel],
      and a loop that needs more iterations than [fuel] yields [OutOfFuel].
    - [extract_key_points] is a total function: on a [str] and an [int] none
      of its operations raises, so its [except] branch is not modelled.

    The development then covers the rest of [extract_key_points] (the parsing
    of the hosted model's answer and the handler, in
    [extract_key_points_full], with the hosted model as a parameter),
    [clean_transcript] of [backend/app/asr.py] (with [str.upper] on one
    character as a parameter, its result not being confined to the code
    points modelled) and the summary preview of the lecture lists of
    [backend/app/main.py]. *)

From Stdlib Require Import ZArith Ascii String.
From stdpp Require Import base decidable numbers option list sets gmap strings sorting.

Local Open Scope Z_scope.

(** ** Characters and the [str] methods used by the source *)

Module Py.

(** [str.isspace] on one code point below 256. *)
Definition is_space (c : ascii) : bool :=
  let n := N_of_ascii c in
  ((9 <=? n) && (n <=? 13) || (28 <=? n) && (n <=? 32)
   || (n =? 133) || (n =? 160))%N.

(** [str.lower] on one code point below 256. *)
Definition lower_char (c : ascii) : ascii :=
  let n := N_of_ascii c in
  if ((65 <=? n) && (n <=? 90)
      || (192 <=? n) && (n <=? 222) && negb (n =? 215))%N
  then ascii_of_N (n + 32) else c.

Fixpoint lower (s : string) : string :=
  match s with
  | EmptyString => EmptyString
  | String c r => String (lower_char c) (lower r)
  end.

(** [s.lstrip], [s.rstrip] and [s.strip] for a set of characters given by
    its membership test. *)
Fixpoint lstrip_by (p : ascii → bool) (s : string) : string :=
  match s with
  | EmptyString => EmptyString
  | String c r => if p c then lstrip_by p r else s
  end.

Fixpoint rstrip_by (p : ascii → bool) (s : string) : string :=
  match s with
  | EmptyString => EmptyString
  | String c r =>
      match rstrip_by p r with
      | EmptyString => if p c then EmptyString else String c EmptyString
      | r' => String c r'
      end
  end.

Definition strip_by (p : ascii → bool) (s : string) : string :=
  rstrip_by p (lstrip_by p s).

(** [s.strip()] *)
Definition strip : string → string := strip_by is_space.

(** [s.split()]: the maximal runs of non-whitespace characters. *)
Fixpoint split (s : string) : list string :=
  match s with
  | EmptyString => []
  | String c r =>
      if is_space c then split r
      else match r with
           | EmptyString => [String c EmptyString]
           | String c' _ =>
               if is_space c' then String c EmptyString :: split r
               else match split r with
                    | w :: ws => String c w :: ws
                    | [] => [String c EmptyString]
                    end
           end
  end.

(** [sep.join(ws)] *)
Fixpoint join (sep : string) (ws : list string) : string :=
  match ws with
  | [] => EmptyString
  | [w] => w
  | w :: ws' => w +:+ sep +:+ join sep ws'
  end.

(** [k in s] on strings: [k] occurs as a contiguous substring of [s]. *)
Fixpoint contains (k s : string) : bool :=
  String.prefix k s
  || match s with
     | EmptyString => false
     | String _ r => contains k r
     end.

Fixpoint last_char (s : string) : option ascii :=
  match s with
  | EmptyString => None
  | String c EmptyString => Some c
  | String _ r => last_char r
  end.

(** [s.endswith(cs)] for a tuple [cs] of one-character strings given by its
    membership test. *)
Definition endswith (p : ascii → bool) (s : string) : bool :=
  match last_char s with
  | Some c => p c
  | None => false
  end.

(** [l[:n]] for a Python integer [n]. *)
Definition slice_to {A} (n : Z) (l : list A) : list A :=
  if 0 <=? n then take (Z.to_nat n) l
  else take (length l - Z.to_nat (- n)) l.

End Py.

(** ** The key-point ranker: [extract_key_points], local path *)

(** The character class of the pattern [[.!?]+]. *)
Definition is_terminator (c : ascii) : bool :=
  match c with
  | "."%char | "!"%char | "?"%char => true
  | _ => false
  end.

(** [re.split(r'[.!?]+', text)]: the text is cut at every maximal run of
    terminators; a run at either end leaves an empty fragment there. *)
Fixpoint re_split_terminators (text : string) : list string :=
  match text with
  | EmptyString => [EmptyString]
  | String c r =>
      if is_terminator c then
        match r with
        | String c' _ =>
            if is_terminator c' then re_split_terminators r
            else EmptyString :: re_split_terminators r
        | EmptyString => EmptyString :: re_split_terminators r
        end
      else
        match re_split_terminators r with
        | f :: fs => String c f :: fs
        | [] => [String c EmptyString]
        end
  end.

(** [[s.strip() for s in re.split(r'[.!?]+', text) if len(s.strip()) > 20]] *)
Definition qualifying_sentences (text : string) : list string :=
  Py.strip <$>
    filter (λ s, (20 < String.length (Py.strip s))%nat) (re_split_terminators text).

Definition no_key_points : string := "No key points could be extracted.".

(** [s + "." if not s.endswith(('.', '!', '?')) else s] *)
Definition add_period (s : string) : string :=
  if negb (Py.endswith is_terminator s) then s +:+ "." else s.

(** [s.strip() + "." if not s.strip().endswith(('.', '!', '?')) else s.strip()] *)
Definition normalize (s : string) : string :=
  if negb (Py.endswith is_terminator (Py.strip s)) then Py.strip s +:+ "."
  else Py.strip s.

Definition important_keywords : gset string :=
  {[ "important"; "key"; "theory"; "principle"; "therefore"; "result" ]}.

(** The body of the scoring loop for the sentence at position [idx]. *)
Definition sentence_score (idx : nat) (sentence : string) : Z :=
  let n := Z.of_nat (length (Py.split sentence)) in
  let score := if (10 <=? n) && (n <=? 25) then 10 else 5 in
  let score :=
    score + foldr Z.add 0
              ((λ _, 8) <$> filter (λ k, Py.contains k (Py.lower sentence))
                              (elements important_keywords)) in
  score + Z.max 0 (10 - Z.of_nat idx `div` 3).

(** An entry [(score, sentence, idx)] of the list [scored]. *)
Record scored_sentence := Scored {
  sc_score : Z;
  sc_sentence : string;
  sc_idx : nat
}.

Definition scored_of (sentences : list string) : list scored_sentence :=
  imap (λ idx sentence, Scored (sentence_score idx sentence) sentence idx)
       sentences.

(** [list.sort] and [sorted] are stable; a stable sort is determined by its
    key order, and is given here by insertion from the right. *)
Fixpoint insert_by_score_desc (x : scored_sentence) (l : list scored_sentence)
  : list scored_sentence :=
  match l with
  | [] => [x]
  | y :: l' =>
      if sc_score x <? sc_score y then y :: insert_by_score_desc x l'
      else x :: l
  end.

(** [scored.sort(reverse=True, key=lambda x: x[0])] *)
Definition sort_by_score_desc (l : list scored_sentence) : list scored_sentence :=
  foldr insert_by_score_desc [] l.

Fixpoint insert_by_idx (x : scored_sentence) (l : list scored_sentence)
  : list scored_sentence :=
  match l with
  | [] => [x]
  | y :: l' =>
      if (sc_idx y <? sc_idx x)%nat then y :: insert_by_idx x l'
      else x :: l
  end.

(** [sorted(l, key=lambda x: x[2])] *)
Definition sort_by_idx (l : list scored_sentence) : list scored_sentence :=
  foldr insert_by_idx [] l.

Definition extract_key_points (text : string) (num_points : Z) : list string :=
  let sentences := qualifying_sentences text in
  match sentences with
  | [] => [no_key_points]
  | _ =>
      if Z.of_nat (length sentences) <=? num_points then
        add_period <$> sentences
      else
        let scored := sort_by_score_desc (scored_of sentences) in
        let top := sort_by_idx (Py.slice_to num_points scored) in
        (λ x, normalize (sc_sentence x)) <$> top
  end.

(** ** Effects: the random source, raised exceptions and divergence *)

(** The outcome of running a piece of the source: a value, a raised
    exception, or no outcome within the given number of loop iterations. *)
Inductive result (A : Type) : Type :=
  | Ok (a : A)
  | Raise
  | OutOfFuel.
Arguments Ok {A} a.
Arguments Raise {A}.
Arguments OutOfFuel {A}.

(** A computation reads the random stream through a cursor [cur]. *)
Definition M (A : Type) : Type := nat → result (A * nat).

Definition ret {A} (a : A) : M A := λ cur, Ok (a, cur).
Definition raise {A} : M A := λ _, Raise.
Definition diverge {A} : M A := λ _, OutOfFuel.
Definition bind {A B} (c : M A) (k : A → M B) : M B :=
  λ cur, match c cur with
         | Ok (a, cur') => k a cur'
         | Raise => Raise
         | OutOfFuel => OutOfFuel
         end.

(** [try: c except Exception: return a] *)
Definition try_except {A} (c : M A) (a : A) : M A :=
  λ cur, match c cur with
         | Raise => Ok (a, cur)
         | r => r
         end.

Notation "'let*' x ':=' c 'in' k" := (bind c (λ x, k))
  (at level 10, x pattern, c at level 100, k at level 200).

(** [l[i] = v] *)
Definition set_item {A} (l : list A) (i : nat) (v : A) : M (list A) :=
  if (i <? length l)%nat then ret (<[i := v]> l) else raise.

(** ** The quiz synthesizer: [generate_quiz], local path *)

Record QuizQuestion := Quiz {
  question : string;
  options : list string;
  correct_answer : string
}.

Definition common_words : gset string :=
  {[ "the"; "a"; "an"; "is"; "are"; "was"; "were"; "and"; "but";
     "in"; "on"; "at"; "to"; "for"; "of"; "with"; "that"; "this";
     "these"; "those"; "from"; "by"; "as"; "lecture"; "concept" ]}.

(** The characters removed by [w.strip(..)]: the ten marks written below,
    the double quote (code 34) and the apostrophe (code 39). *)
Definition is_punctuation (c : ascii) : bool :=
  match c with
  | "."%char | ","%char | "!"%char | "?"%char | ";"%char | ":"%char
  | "("%char | ")"%char | "["%char | "]"%char | "034"%char | "039"%char => true
  | _ => false
  end.

Definition strip_punctuation : string → string := Py.strip_by is_punctuation.

(** [len(w) > 5 and w.lower() not in common_words] *)
Definition is_blankable (w : string) : bool :=
  (5 <? String.length w)%nat && bool_decide (Py.lower w ∉ common_words).

(** The words one candidate sentence adds to the distractor pool. *)
Definition valid_words (sentence : string) : list string :=
  let words := strip_punctuation <$> Py.split sentence in
  filter (λ w, is_blankable w) words.

Definition all_potential_distractors (candidate_sentences : list string)
  : list string :=
  foldl (λ pool sentence, pool ++ valid_words sentence) [] candidate_sentences.

(** [[(i, w.strip(..)) for i, w in enumerate(words) if ..]] *)
Definition blank_candidates (words : list string) : list (nat * string) :=
  filter (λ c, is_blankable c.2) (imap (λ i w, (i, strip_punctuation w)) words).

Definition blank_marker : string := "__________".

Definition quote : string := String "034"%char EmptyString.

Definition question_text (q_words : list string) : string :=
  "Complete the statement: " +:+ quote +:+ Py.join " " q_words +:+ quote.

Section RandomSource.

(** The values the random source produces, in the order it produces them. *)
Variable draw : nat → nat.

(** [random._randbelow(n)] for [n > 0] *)
Definition randbelow (n : nat) : M nat :=
  λ cur, Ok ((draw cur `mod` n)%nat, S cur).

(** [random.choice(seq)] *)
Definition choice {A} (seq : list A) : M A :=
  match seq with
  | [] => raise
  | x :: _ =>
      let* i := randbelow (length seq) in
      ret (nth i seq x)
  end.

(** [x[i], x[j] = x[j], x[i]] with both indices in range. *)
Definition swap {A} (i j : nat) (x : list A) : list A :=
  match x !! i, x !! j with
  | Some a, Some b => <[j := a]> (<[i := b]> x)
  | _, _ => x
  end.

(** The loop of [random.shuffle]:
    [for i in reversed(range(1, len(x))): j = randbelow(i + 1); swap]. *)
Fixpoint shuffle_from {A} (i : nat) (x : list A) : M (list A) :=
  match i with
  | O => ret x
  | S i' =>
      let* j := randbelow (S i) in
      shuffle_from i' (swap i j x)
  end.

(** [random.shuffle(x)] *)
Definition shuffle {A} (x : list A) : M (list A) :=
  shuffle_from (length x - 1) x.

(** The [while len(options) < 4] loop; [fuel] bounds its iterations. *)
Fixpoint build_options (fuel : nat) (answer : string)
    (current_distractors : list string) (options : list string)
  : M (list string) :=
  if (length options <? 4)%nat then
    match fuel with
    | O => diverge
    | S fuel' =>
        match current_distractors with
        | _ :: _ =>
            let* distractor := choice current_distractors in
            if bool_decide (distractor ∉ options) then
              build_options fuel' answer current_distractors
                (options ++ [distractor])
            else
              build_options fuel' answer current_distractors options
        | [] =>
            ret (options ++ ["Not " +:+ answer; "None of the above"])
        end
    end
  else ret options.

(** The [for sentence in candidate_sentences] loop, with its state
    [quiz_questions] and [used_answers]. *)
Fixpoint quiz_loop (fuel : nat) (num_questions : Z)
    (pool : list string) (candidate_sentences : list string)
    (quiz_questions : list QuizQuestion) (used_answers : gset string)
  : M (list QuizQuestion) :=
  match candidate_sentences with
  | [] => ret quiz_questions
  | sentence :: rest =>
      if Z.of_nat (length quiz_questions) >=? num_questions then
        ret quiz_questions
      else
        let words := Py.split sentence in
        if (length words <? 8)%nat then
          quiz_loop fuel num_questions pool rest quiz_questions used_answers
        else
          let candidates := blank_candidates words in
          match candidates with
          | [] =>
              quiz_loop fuel num_questions pool rest quiz_questions used_answers
          | _ :: _ =>
              let* (blank_idx, answer) := choice candidates in
              if bool_decide (Py.lower answer ∈ used_answers) then
                quiz_loop fuel num_questions pool rest quiz_questions
                  used_answers
              else
                let used_answers := used_answers ∪ {[ Py.lower answer ]} in
                let* q_words := set_item words blank_idx blank_marker in
                let current_distractors :=
                  filter (λ d, Py.lower d ≠ Py.lower answer) pool in
                let* options :=
                  build_options fuel answer current_distractors [answer] in
                let* options := shuffle options in
                quiz_loop fuel num_questions pool rest
                  (quiz_questions
                     ++ [Quiz (question_text q_words) options answer])
                  used_answers
          end
  end.

Definition placeholder_question : QuizQuestion :=
  Quiz "What is a key concept here?" ["A"; "B"; "C"; "D"] "A".

Definition generate_quiz (fuel : nat) (text : string) (num_questions : Z)
  : M (list QuizQuestion) :=
  try_except
    (let candidate_sentences := extract_key_points text (num_questions * 3) in
     let pool := all_potential_distractors candidate_sentences in
     quiz_loop fuel num_questions pool candidate_sentences [] ∅)
    [placeholder_question].

End RandomSource.


(** A text is too short when no fragment between terminators is longer than
    20 characters once trimmed. *)
Definition too_short (text : string) : Prop :=
  Forall (λ s, (String.length (Py.strip s) ≤ 20)%nat) (re_split_terminators text).

(** ** The score as the specification words it *)

(** The number of positions of [s] at which [k] occurs. *)
Fixpoint count_occurrences (k s : string) : nat :=
  ((if String.prefix k s then 1 else 0)
   + match s with
     | EmptyString => 0
     | String _ r => count_occurrences k r
     end)%nat.

(** The score as worded in the specification, 8 for every occurrence of a
    vocabulary term in the lower-cased sentence; the score the source computes
    is [sentence_score]. *)
Definition spec_sentence_score (idx : nat) (sentence : string) : Z :=
  let n := Z.of_nat (length (Py.split sentence)) in
  (if (10 <=? n) && (n <=? 25) then 10 else 5)
  + 8 * foldr Z.add 0
          ((λ k, Z.of_nat (count_occurrences k (Py.lower sentence)))
             <$> elements important_keywords)
  + Z.max 0 (10 - Z.of_nat idx `div` 3).

(** The number of vocabulary terms that occur in the sentence, whatever its
    case. *)
Definition terms_present (sentence : string) : nat :=
  size (filter (λ k, Py.contains k (Py.lower sentence)) important_keywords).

(** ** Vocabulary for the properties of the quiz *)

(** A string without whitespace, as every word of [s.split()] is. *)
Fixpoint no_space (s : string) : bool :=
  match s with
  | EmptyString => true
  | String c r => negb (Py.is_space c) && no_space r
  end.

(** The two shapes of the options of a question built from a sentence: four
    distinct options drawn from the distractors left for its answer, or, when
    none is left, the answer and the two filler options. *)
Definition built_from (pool : list string) (sentence : string)
    (q : QuizQuestion) : Prop :=
  let answer := correct_answer q in
  let current_distractors :=
    filter (λ d, Py.lower d ≠ Py.lower answer) pool in
  (∃ blank_idx, (blank_idx, answer) ∈ blank_candidates (Py.split sentence))
  ∧ ((current_distractors ≠ []
      ∧ length (options q) = 4%nat
      ∧ NoDup (options q)
      ∧ answer ∈ options q
      ∧ ∀ o, o ∈ options q → o = answer ∨ o ∈ current_distractors)
     ∨ (current_distractors = []
        ∧ options q ≡ₚ [answer; "Not " +:+ answer; "None of the above"])).

(** A text and a random stream on which the quiz has several questions. *)
Definition sample_text : string :=
  "Photosynthesis converts sunlight into chemical energy inside green plant cells. Mitochondria release stored energy through cellular respiration in nearly every organism. Ribosomes assemble proteins from amino acids following messenger instructions precisely.".

Definition sample_draw (cur : nat) : nat := (7 * cur + 3)%nat.

Definition sample_quiz : list QuizQuestion :=
  Eval vm_compute in
    match generate_quiz sample_draw 20 sample_text 3 0%nat with
    | Ok (quiz_questions, _) => quiz_questions
    | _ => []
    end.

(** A sentence whose only blankable word is "elephant", and one with the
    two blankable words "elephant" and "giraffe". *)
Definition one_word_text : string :=
  "The cat sat on the mat with elephant today".

Definition two_word_text : string :=
  "The cat sat on the mat with elephant and giraffe".

(** A string is left-stripped for a character set when it is empty or
    starts with a character outside the set. *)
Definition lstripped (p : ascii → bool) (s : string) : Prop :=
  match s with
  | EmptyString => True
  | String c _ => p c = false
  end.

(** ** Vocabulary for the selection of the key points *)

(** [x] is ranked before [y]: a higher score, or the same score at an earlier
    position. *)
Definition ranks_before (x y : scored_sentence) : Prop :=
  sc_score y < sc_score x
  ∨ (sc_score x = sc_score y ∧ (sc_idx x < sc_idx y)%nat).

(** A string in which no terminator occurs, as every fragment of
    [re.split(r'[.!?]+', text)] is. *)
Fixpoint no_terminator (s : string) : bool :=
  match s with
  | EmptyString => true
  | String c r => negb (is_terminator c) && no_terminator r
  end.

(** ** The other paths of [extract_key_points] *)

(** [s.split(sep)] for a one-character separator: the pieces between the
    separators, empty pieces included. *)
Fixpoint split_on (sep : ascii) (s : string) : list string :=
  match s with
  | EmptyString => [EmptyString]
  | String c r =>
      if Ascii.eqb c sep then EmptyString :: split_on sep r
      else match split_on sep r with
           | f :: fs => String c f :: fs
           | [] => [String c EmptyString]
           end
  end.

Definition is_digit (c : ascii) : bool :=
  let n := N_of_ascii c in ((48 <=? n) && (n <=? 57))%N.

(** The character class of the pattern that strips the list marks of a line:
    whitespace, hyphen, asterisk, digits and full stop.  The bullet of the
    pattern is U+2022, which is not a code point of the strings modelled. *)
Definition is_list_mark (c : ascii) : bool :=
  Py.is_space c
  || match c with
     | "-"%char | "*"%char | "."%char => true
     | _ => false
     end
  || is_digit c.

Definition newline : ascii := "010"%char.

(** The parsing of the answer of the hosted model, from the raw [content] of
    its message: [content.strip()], one point per non-blank line with its
    leading list marks removed, cut to [num_points]. *)
Definition parse_key_points (raw : string) (num_points : Z) : list string :=
  let content := Py.strip raw in
  let points :=
    (λ line, Py.strip (Py.lstrip_by is_list_mark line))
      <$> filter (λ line, Py.strip line ≠ EmptyString) (split_on newline content) in
  Py.slice_to num_points points.



(** ** Vocabulary for the questions of the quiz *)

(** The question blanks one word of the sentence, and that word, without the
    punctuation around it, is the answer. *)
Definition blanked_from (sentence : string) (q : QuizQuestion) : Prop :=
  ∃ blank_idx w,
    Py.split sentence !! blank_idx = Some w
    ∧ strip_punctuation w = correct_answer q
    ∧ is_blankable (correct_answer q) = true
    ∧ (8 ≤ length (Py.split sentence))%nat
    ∧ question q
      = question_text (<[blank_idx := blank_marker]> (Py.split sentence)).

(** ** The clean-up of a transcript: [clean_transcript] of [asr.py] *)

Section Transcript.

(** [c.upper()] of a one-character string, which may have several
    characters. *)
Variable upper : ascii → string.

Definition clean_transcript (text : string) : string :=
  let text := Py.join " " (Py.split text) in
  let text :=
    match text with
    | String c r => upper c +:+ r
    | EmptyString => text
    end in
  match Py.last_char text with
  | Some c => if negb (is_terminator c) then text +:+ "." else text
  | None => text
  end.

End Transcript.

(** [str.upper] on the code points below 128, where it only moves the letters
    [a] to [z]; it is the instance on which the properties of
    [clean_transcript] are exercised. *)
Definition upper_ascii (c : ascii) : string :=
  let n := N_of_ascii c in
  if ((97 <=? n) && (n <=? 122))%N then String (ascii_of_N (n - 32)) EmptyString
  else String c EmptyString.

(** The words of a cleaned text: none is empty and none holds whitespace. *)
Definition words_ok (ws : list string) : Prop :=
  Forall (λ w, w ≠ EmptyString ∧ no_space w = true) ws.

(** ** The preview of a summary in the lecture lists of [main.py] *)

(** [lecture.get("summary", "")[:100]], with three dots appended when the
    summary is longer than 100 characters; [lecture] holds the string fields
    of the stored document. *)
Definition summary_preview (lecture : gmap string string) : string :=
  let summary := default EmptyString (lecture !! "summary") in
  let preview := String.substring 0 100 summary in
  if (100 <? String.length summary)%nat then preview +:+ "..." else preview.

(** * Properties *)

(** ** Tactics *)

(** Decides [too_short] on a literal text. *)
Ltac solve_too_short :=
  unfold too_short; vm_compute re_split_terminators;
  repeat first
    [ apply List.Forall_nil | apply List.Forall_cons; [vm_compute; lia|] ].

(** Proves that a one-element list is included in a literal list. *)
Ltac solve_included :=
  intros ? ->%list_elem_of_singleton; rewrite !elem_of_cons; auto.


(** ** Facts about the [str] methods *)

Section StringFacts.

Local Open Scope nat_scope.

Lemma app_cons c s t : String c s +:+ t = String c (s +:+ t).
Proof. reflexivity. Qed.

Lemma app_length s t :
  String.length (s +:+ t) = String.length s + String.length t.
Proof. induction s as [|c s IH]; [done|]. rewrite app_cons. simpl. by rewrite IH. Qed.

Lemma last_char_snoc s c : Py.last_char (s +:+ String c "") = Some c.
Proof.
  induction s as [|a s IH]; [done|].
  rewrite app_cons. simpl. rewrite IH.
  by destruct (s +:+ String c "") eqn:E; [destruct s|].
Qed.

Lemma endswith_snoc p s c : Py.endswith p (s +:+ String c "") = p c.
Proof. unfold Py.endswith. by rewrite last_char_snoc. Qed.

Variable p : ascii → bool.

Lemma lstrip_by_idemp s : Py.lstrip_by p (Py.lstrip_by p s) = Py.lstrip_by p s.
Proof.
  induction s as [|c s IH]; [done|]. simpl.
  destruct (p c) eqn:E; [done|]. simpl. by rewrite E.
Qed.

Lemma rstrip_by_idemp s : Py.rstrip_by p (Py.rstrip_by p s) = Py.rstrip_by p s.
Proof.
  induction s as [|c s IH]; [done|]. simpl.
  destruct (Py.rstrip_by p s) as [|c' s'] eqn:E.
  - destruct (p c) eqn:Ec; [done|]. simpl. by rewrite Ec.
  - change (Py.rstrip_by p (String c (String c' s')) = String c (String c' s')).
    cbn [Py.rstrip_by]. cbn [Py.rstrip_by] in IH. by rewrite IH.
Qed.

Lemma lstripped_lstrip s : lstripped p (Py.lstrip_by p s).
Proof. induction s as [|c s IH]; [done|]. simpl. by destruct (p c) eqn:E. Qed.

Lemma lstrip_by_lstripped s : lstripped p s → Py.lstrip_by p s = s.
Proof. destruct s as [|c s]; [done|]. simpl. by intros ->. Qed.

Lemma lstripped_rstrip s : lstripped p s → lstripped p (Py.rstrip_by p s).
Proof.
  destruct s as [|c s]; [done|]. simpl. intros E.
  destruct (Py.rstrip_by p s); [by rewrite E|done].
Qed.

Lemma strip_by_idemp s : Py.strip_by p (Py.strip_by p s) = Py.strip_by p s.
Proof.
  unfold Py.strip_by.
  rewrite (lstrip_by_lstripped (Py.rstrip_by p _)).
  - apply rstrip_by_idemp.
  - apply lstripped_rstrip, lstripped_lstrip.
Qed.

Lemma rstrip_by_snoc s c :
  p c = false → Py.rstrip_by p (s +:+ String c "") = s +:+ String c "".
Proof.
  intros Hc. induction s as [|a s IH].
  - simpl. by rewrite Hc.
  - rewrite app_cons. simpl. rewrite IH.
    by destruct (s +:+ String c "") eqn:E; [destruct s|].
Qed.

Lemma strip_by_snoc s c :
  p c = false → lstripped p s →
  Py.strip_by p (s +:+ String c "") = s +:+ String c "".
Proof.
  intros Hc Hs. unfold Py.strip_by.
  rewrite lstrip_by_lstripped; [by apply rstrip_by_snoc|].
  destruct s; [done|]. by rewrite app_cons.
Qed.

Lemma lstripped_strip s : lstripped p (Py.strip_by p s).
Proof. apply lstripped_rstrip, lstripped_lstrip. Qed.

End StringFacts.

(** ** The terminal-punctuation normalizer *)

Lemma strip_idemp s : Py.strip (Py.strip s) = Py.strip s.
Proof. apply strip_by_idemp. Qed.

(** C10: the terminal-punctuation normalizer (trim whitespace, then append
    a full stop unless the string already ends in a full stop, an exclamation
    mark or a question mark) is idempotent: applying it twice gives the same
    string as applying it once. *)
Theorem normalize_idempotent (s : string) :
  normalize (normalize s) = normalize s.
Proof.
  unfold normalize.
  destruct (Py.endswith is_terminator (Py.strip s)) eqn:E; simpl.
  - by rewrite strip_idemp, E.
  - assert (Py.strip (Py.strip s +:+ ".") = Py.strip s +:+ ".") as ->.
    { apply strip_by_snoc; [done|apply lstripped_strip]. }
    by rewrite endswith_snoc.
Qed.

(** ** Degenerate input: no qualifying sentence *)

Lemma too_short_no_sentences text :
  too_short text → qualifying_sentences text = [].
Proof.
  unfold too_short, qualifying_sentences.
  induction 1 as [|s l Hs _ IH]; [done|].
  rewrite filter_cons_False by lia. exact IH.
Qed.

Lemma key_points_of_too_short text num_points :
  too_short text → extract_key_points text num_points = [no_key_points].
Proof.
  intros H. unfold extract_key_points. by rewrite too_short_no_sentences.
Qed.

(** The sentinel sentence is itself too short to be blanked: the loop of
    [generate_quiz] skips it whatever its state. *)
Lemma quiz_loop_sentinel draw fuel num_questions pool quiz used cur :
  quiz_loop draw fuel num_questions pool [no_key_points] quiz used cur
  = Ok (quiz, cur).
Proof.
  cbn [quiz_loop].
  destruct (Z.of_nat (length quiz) >=? num_questions); [done|].
  replace (Py.split no_key_points)
    with ["No"; "key"; "points"; "could"; "be"; "extracted."] by (by vm_compute).
  done.
Qed.

(** C8: a text with no fragment whose trimmed length exceeds 20 characters
    makes [extract_key_points] return the one-element sentinel list, not an
    empty list and not a fault. *)
Theorem extract_key_points_sentinel (text : string) (num_points : Z) :
  Forall (λ s, (String.length (Py.strip s) ≤ 20)%nat) (re_split_terminators text) →
  extract_key_points text num_points = ["No key points could be extracted."].
Proof. apply key_points_of_too_short. Qed.

Lemma extract_key_points_sentinel_witness :
  Forall (λ s, (String.length (Py.strip s) ≤ 20)%nat)
    (re_split_terminators "Too short. Also short!")
  ∧ extract_key_points "Too short. Also short!" 7
    = ["No key points could be extracted."].
Proof.
  assert (H : Forall (λ s, (String.length (Py.strip s) ≤ 20)%nat)
                (re_split_terminators "Too short. Also short!")).
  { solve_too_short. }
  split; [exact H|]. exact (extract_key_points_sentinel _ 7 H).
Defined.

(** C2, as stated, fails: on the empty text the quiz is the empty list, not
    the placeholder question. *)
Lemma quiz_of_empty_text_is_empty :
  too_short ""
  ∧ generate_quiz (λ _, 0%nat) 1 "" 1 0%nat = Ok ([], 0%nat)
  ∧ Ok ([], 0%nat) ≠ Ok ([placeholder_question], 0%nat).
Proof.
  split; [|split].
  - solve_too_short.
  - by vm_compute.
  - discriminate.
Qed.

(** C2, amended: for a text with no fragment whose trimmed length exceeds 20
    characters, [generate_quiz] returns the empty list (it neither raises nor
    runs its option loop, and the placeholder question is not produced), and
    [extract_key_points] returns the one-element sentinel list. *)
Theorem too_short_text_degenerate (draw : nat → nat) (fuel : nat)
    (text : string) (num_questions num_points : Z) (cur : nat) :
  Forall (λ s, (String.length (Py.strip s) ≤ 20)%nat) (re_split_terminators text) →
  generate_quiz draw fuel text num_questions cur = Ok ([], cur)
  ∧ extract_key_points text num_points = ["No key points could be extracted."].
Proof.
  intros H. split; [|by apply key_points_of_too_short].
  unfold generate_quiz, try_except.
  rewrite key_points_of_too_short by done.
  by rewrite quiz_loop_sentinel.
Qed.

Lemma too_short_text_degenerate_witness :
  Forall (λ s, (String.length (Py.strip s) ≤ 20)%nat)
    (re_split_terminators "This is short.")
  ∧ generate_quiz (λ n, n) 0 "This is short." 5 0%nat = Ok ([], 0%nat)
  ∧ extract_key_points "This is short." 7 = ["No key points could be extracted."].
Proof.
  assert (H : Forall (λ s, (String.length (Py.strip s) ≤ 20)%nat)
                (re_split_terminators "This is short.")).
  { solve_too_short. }
  split; [exact H|].
  exact (too_short_text_degenerate (λ n, n) 0 _ 5 7 0%nat H).
Defined.

(** ** Scoring *)

Lemma keyword_bonus sentence :
  foldr Z.add 0
    ((λ _, 8) <$> filter (λ k, Py.contains k (Py.lower sentence))
                    (elements important_keywords))
  = 8 * Z.of_nat (terms_present sentence).
Proof.
  unfold terms_present, size, set_size. simpl.
  set (P := λ k : string, Is_true (Py.contains k (Py.lower sentence))).
  assert (Hp : filter P (elements important_keywords)
               ≡ₚ elements (filter P important_keywords)).
  { apply NoDup_Permutation.
    - apply NoDup_filter, NoDup_elements.
    - apply NoDup_elements.
    - intros k. rewrite list_elem_of_filter, !elem_of_elements, elem_of_filter.
      done. }
  rewrite <- Hp. clear Hp.
  induction (filter P (elements important_keywords)) as [|k l IH]; [done|].
  cbn [fmap list_fmap foldr length]. rewrite IH. lia.
Qed.

Lemma scored_of_lookup sentences idx sentence :
  sentences !! idx = Some sentence →
  scored_of sentences !! idx
  = Some (Scored (sentence_score idx sentence) sentence idx).
Proof. intros H. unfold scored_of. by rewrite list_lookup_imap, H. Qed.

(** C7, as stated, fails: a sentence in which the term "key" occurs twice
    gets 8 for it, not 16. *)
Lemma score_counts_a_repeated_term_once :
  let text := "The key idea is that every key opens a different door. Another sentence follows here without any special terms." in
  let sentence := "The key idea is that every key opens a different door" in
  qualifying_sentences text !! 0%nat = Some sentence
  ∧ (Z.of_nat (length (qualifying_sentences text)) > 1)
  ∧ sc_score <$> scored_of (qualifying_sentences text) !! 0%nat = Some 28
  ∧ spec_sentence_score 0 sentence = 36.
Proof. by vm_compute. Qed.

(** C7, amended: when the qualifying sentence count exceeds [num_points], the
    sentence at 0-based index [idx] is scored (10 if its word count is in
    [10, 25] inclusive, else 5) + 8 for each term of the importance
    vocabulary that occurs at least once as a case-insensitive substring of
    the sentence + max(0, 10 - floor(idx/3)). *)
Theorem sentence_score_formula (text : string) (num_points : Z)
    (idx : nat) (sentence : string) :
  Z.of_nat (length (qualifying_sentences text)) > num_points →
  qualifying_sentences text !! idx = Some sentence →
  ∃ x, scored_of (qualifying_sentences text) !! idx = Some x
    ∧ sc_sentence x = sentence ∧ sc_idx x = idx
    ∧ sc_score x
      = (if bool_decide (10 ≤ Z.of_nat (length (Py.split sentence)) ≤ 25)
         then 10 else 5)
        + 8 * Z.of_nat (terms_present sentence)
        + Z.max 0 (10 - Z.of_nat idx `div` 3).
Proof.
  intros _ H. eexists. split; [by apply scored_of_lookup|].
  do 2 (split; [done|]). cbn [sc_score]. unfold sentence_score.
  rewrite keyword_bonus. do 2 f_equal.
  case_bool_decide as Hn.
  - destruct Hn as [? ?].
    by rewrite (proj2 (Z.leb_le _ _)), (proj2 (Z.leb_le _ _)) by done.
  - destruct (Z.leb_spec 10 (Z.of_nat (length (Py.split sentence))));
      destruct (Z.leb_spec (Z.of_nat (length (Py.split sentence))) 25);
      simpl; try done; lia.
Qed.

Lemma sentence_score_formula_witness :
  let text := "The mitochondria is the powerhouse of the cell. Therefore this principle is important for biology students everywhere." in
  let sentence := "Therefore this principle is important for biology students everywhere" in
  ∃ x, scored_of (qualifying_sentences text) !! 1%nat = Some x
    ∧ sc_sentence x = sentence ∧ sc_idx x = 1%nat
    ∧ sc_score x
      = (if bool_decide (10 ≤ Z.of_nat (length (Py.split sentence)) ≤ 25)
         then 10 else 5)
        + 8 * Z.of_nat (terms_present sentence)
        + Z.max 0 (10 - Z.of_nat 1 `div` 3).
Proof.
  apply (sentence_score_formula _ 1 1%nat); by vm_compute.
Defined.

(** ** Selection and order of the key points *)

Section Ranking.

Local Open Scope nat_scope.

Lemma insert_by_score_desc_perm x l : insert_by_score_desc x l ≡ₚ x :: l.
Proof.
  induction l as [|y l IH]; [done|]. simpl.
  destruct (sc_score x <? sc_score y)%Z; [|done].
  rewrite IH. apply perm_swap.
Qed.

Lemma sort_by_score_desc_perm l : sort_by_score_desc l ≡ₚ l.
Proof.
  induction l as [|x l IH]; [done|]. simpl.
  by rewrite insert_by_score_desc_perm, IH.
Qed.

Lemma insert_by_idx_perm x l : insert_by_idx x l ≡ₚ x :: l.
Proof.
  induction l as [|y l IH]; [done|]. simpl.
  destruct (sc_idx y <? sc_idx x); [|done].
  rewrite IH. apply perm_swap.
Qed.

Lemma sort_by_idx_perm l : sort_by_idx l ≡ₚ l.
Proof.
  induction l as [|x l IH]; [done|]. simpl.
  by rewrite insert_by_idx_perm, IH.
Qed.

Lemma insert_by_idx_sorted x l :
  sc_idx x ∉ sc_idx <$> l →
  StronglySorted lt (sc_idx <$> l) →
  StronglySorted lt (sc_idx <$> insert_by_idx x l).
Proof.
  induction l as [|y l IH]; intros Hx Hl.
  - simpl. repeat constructor.
  - rewrite fmap_cons in Hx, Hl.
    apply not_elem_of_cons in Hx as [Hxy Hx].
    apply StronglySorted_cons in Hl as [Hy Hl].
    simpl. destruct (Nat.ltb_spec (sc_idx y) (sc_idx x)) as [Hlt|Hge].
    + rewrite fmap_cons. apply StronglySorted_cons. split; [|by apply IH].
      rewrite insert_by_idx_perm, fmap_cons. by constructor.
    + rewrite !fmap_cons. apply StronglySorted_cons. split.
      * constructor; [lia|]. eapply Forall_impl; [exact Hy|]. simpl. lia.
      * by apply StronglySorted_cons.
Qed.

Lemma sort_by_idx_sorted l :
  NoDup (sc_idx <$> l) → StronglySorted lt (sc_idx <$> sort_by_idx l).
Proof.
  induction l as [|x l IH]; [constructor|].
  rewrite fmap_cons, NoDup_cons. intros [Hx Hl]. simpl.
  apply insert_by_idx_sorted; [|by apply IH].
  by rewrite sort_by_idx_perm.
Qed.

Lemma seq_strictly_sorted j n : StronglySorted lt (seq j n).
Proof.
  revert j. induction n as [|n IH]; intros j; [constructor|].
  simpl. constructor; [apply IH|].
  apply Forall_forall. intros i Hi%elem_of_seq. lia.
Qed.

Lemma scored_of_idx sentences :
  sc_idx <$> scored_of sentences = seq 0 (length sentences).
Proof.
  apply list_eq. intros i. unfold scored_of.
  rewrite list_lookup_fmap, list_lookup_imap.
  destruct (sentences !! i) as [s|] eqn:E; simpl.
  - symmetry. apply lookup_seq. split; [done|]. by eapply lookup_lt_Some.
  - symmetry. apply lookup_seq_ge. by apply lookup_ge_None.
Qed.

(** An entry is sound for a sentence list when its sentence is the one at its
    index. *)
Lemma scored_of_sound sentences :
  Forall (λ x, sentences !! sc_idx x = Some (sc_sentence x)) (scored_of sentences).
Proof.
  apply Forall_lookup. intros i x. unfold scored_of.
  rewrite list_lookup_imap. destruct (sentences !! i) eqn:E; [|done].
  simpl. by intros [= <-].
Qed.

Lemma qualifying_sentences_stripped text :
  Forall (λ s, Py.strip s = s) (qualifying_sentences text).
Proof.
  unfold qualifying_sentences. apply Forall_fmap, Forall_forall.
  intros s _. apply strip_idemp.
Qed.

Lemma normalize_stripped s : Py.strip s = s → normalize s = add_period s.
Proof. intros H. unfold normalize, add_period. by rewrite H. Qed.

End Ranking.

(** C6: when [extract_key_points] is called with [num_points = k ≥ 1] on a
    text with at least [k] qualifying sentences, the returned list has length
    exactly [k], and its elements are the normalized qualifying sentences at
    strictly increasing positions of the source text. *)
Theorem key_points_count_and_order (text : string) (k : Z) :
  1 ≤ k →
  k ≤ Z.of_nat (length (qualifying_sentences text)) →
  Z.of_nat (length (extract_key_points text k)) = k
  ∧ ∃ idxs : list nat,
      StronglySorted lt idxs
      ∧ Forall2 (λ i r, ∃ s, qualifying_sentences text !! i = Some s
                            ∧ r = normalize s)
          idxs (extract_key_points text k).
Proof.
  intros Hk Hlen. unfold extract_key_points.
  pose proof (qualifying_sentences_stripped text) as Hstr.
  destruct (qualifying_sentences text) as [|s0 ss] eqn:E.
  { simpl in Hlen. lia. }
  rewrite <- E in *. clear E s0 ss.
  set (sentences := qualifying_sentences text) in *.
  destruct (Z.leb_spec (Z.of_nat (length sentences)) k) as [Hle|Hgt].
  - split; [rewrite length_fmap; lia|].
    exists (seq 0 (length sentences)). split.
    { apply seq_strictly_sorted. }
    apply Forall2_lookup. intros i. rewrite list_lookup_fmap.
    destruct (sentences !! i) as [s|] eqn:Es; simpl.
    + rewrite lookup_seq_lt by (by eapply lookup_lt_Some).
      constructor. exists s. split; [done|]. symmetry.
      apply normalize_stripped. by eapply Forall_lookup_1 in Hstr.
    + rewrite lookup_seq_ge by (by apply lookup_ge_None). constructor.
  - unfold Py.slice_to. rewrite (proj2 (Z.leb_le 0 k)) by lia.
    set (top := take (Z.to_nat k) (sort_by_score_desc (scored_of sentences))).
    assert (Hlt : length top = Z.to_nat k).
    { unfold top. rewrite length_take_le; [done|].
      rewrite sort_by_score_desc_perm. unfold scored_of.
      rewrite length_imap. lia. }
    split; [rewrite length_fmap, sort_by_idx_perm; lia|].
    exists (sc_idx <$> sort_by_idx top). split.
    + apply sort_by_idx_sorted. unfold top. rewrite fmap_take.
      eapply sublist_NoDup; [|apply sublist_take].
      rewrite sort_by_score_desc_perm, scored_of_idx. apply NoDup_seq.
    + apply Forall2_fmap, Forall_Forall2_diag.
      rewrite sort_by_idx_perm. unfold top. apply Forall_take.
      rewrite sort_by_score_desc_perm.
      eapply Forall_impl; [apply scored_of_sound|]. simpl. eauto.
Qed.

Lemma key_points_count_and_order_witness :
  let text := "The mitochondria is the powerhouse of the cell. Therefore this principle is important for biology students everywhere. Energy is stored in molecules called ATP!" in
  Z.of_nat (length (extract_key_points text 2)) = 2
  ∧ ∃ idxs : list nat,
      StronglySorted lt idxs
      ∧ Forall2 (λ i r, ∃ s, qualifying_sentences text !! i = Some s
                            ∧ r = normalize s)
          idxs (extract_key_points text 2).
Proof.
  apply (key_points_count_and_order _ 2); [lia|by vm_compute].
Defined.

(** ** The random calls *)

Section RandomFacts.

Local Open Scope nat_scope.

Variable draw : nat → nat.

Lemma choice_spec {A} (seq : list A) cur :
  seq ≠ [] → ∃ a, choice draw seq cur = Ok (a, S cur) ∧ a ∈ seq.
Proof.
  destruct seq as [|x seq]; [done|]. intros _.
  unfold choice, bind, randbelow, ret.
  set (i := draw cur `mod` length (x :: seq)).
  assert (Hi : i < length (x :: seq)).
  { apply Nat.mod_upper_bound. simpl. lia. }
  apply lookup_lt_is_Some_2 in Hi as [a Ha].
  exists a. rewrite (nth_lookup_Some _ _ _ _ Ha).
  split; [done|]. by eapply list_elem_of_lookup_2.
Qed.

Lemma insert_as_delete {A} (l : list A) i x y :
  l !! i = Some x → <[i := y]> l ≡ₚ y :: delete i l.
Proof.
  revert i. induction l as [|a l IH]; intros [|i] H; simplify_eq/=; [done|].
  rewrite (IH i) by done. apply perm_swap.
Qed.

Lemma swap_perm {A} i j (x : list A) : swap i j x ≡ₚ x.
Proof.
  unfold swap.
  destruct (x !! i) as [a|] eqn:Hi; [|done].
  destruct (x !! j) as [b|] eqn:Hj; [|done].
  revert i j Hi Hj. induction x as [|c x IH]; intros [|i] [|j] Hi Hj;
    simplify_eq/=.
  - done.
  - rewrite (insert_as_delete x j b a) by done.
    rewrite (delete_Permutation x j b) at 2 by done. apply perm_swap.
  - rewrite (insert_as_delete x i a b) by done.
    rewrite (delete_Permutation x i a) at 2 by done. apply perm_swap.
  - by rewrite IH.
Qed.

Lemma shuffle_from_spec {A} i (x : list A) cur :
  ∃ y, shuffle_from draw i x cur = Ok (y, i + cur) ∧ y ≡ₚ x.
Proof.
  revert x cur. induction i as [|i IH]; intros x cur.
  - exists x. by split.
  - cbn [shuffle_from]. unfold bind, randbelow.
    destruct (IH (swap (S i) (draw cur `mod` S (S i)) x) (S cur))
      as (y & Hy & Hp).
    exists y. rewrite Hy. split; [f_equal; f_equal; lia|].
    by rewrite Hp, swap_perm.
Qed.

Lemma shuffle_spec {A} (x : list A) cur :
  ∃ y cur', shuffle draw x cur = Ok (y, cur') ∧ y ≡ₚ x.
Proof.
  destruct (shuffle_from_spec (length x - 1) x cur) as (y & Hy & Hp).
  by exists y, (length x - 1 + cur).
Qed.

(** ** The option loop *)

Lemma build_options_no_raise fuel answer ds opts cur :
  build_options draw fuel answer ds opts cur ≠ Raise.
Proof.
  revert opts cur. induction fuel as [|fuel IH]; intros opts cur;
    cbn [build_options]; destruct (length opts <? 4); try done.
  destruct ds as [|d ds]; [done|].
  destruct (choice_spec (d :: ds) cur) as (a & Ha & _); [done|].
  unfold bind. rewrite Ha. case_bool_decide; apply IH.
Qed.

Lemma build_options_drawn fuel answer ds opts cur r cur' :
  ds ≠ [] → NoDup opts → length opts ≤ 4 →
  build_options draw fuel answer ds opts cur = Ok (r, cur') →
  length r = 4 ∧ NoDup r
  ∧ (∀ o, o ∈ opts → o ∈ r) ∧ (∀ o, o ∈ r → o ∈ opts ∨ o ∈ ds).
Proof.
  intros Hds. revert opts cur.
  induction fuel as [|fuel IH]; intros opts cur Hnd Hlen;
    cbn [build_options]; destruct (Nat.ltb_spec (length opts) 4) as [Hlt|Hge];
    try done.
  - intros [= <- <-]. repeat split; [lia|done|done|by left].
  - destruct ds as [|d ds']; [done|].
    destruct (choice_spec (d :: ds') cur) as (a & Ha & Hin); [done|].
    unfold bind. rewrite Ha. case_bool_decide as Hfresh; intros H.
    + apply IH in H as (Hr1 & Hr2 & Hr3 & Hr4).
      * repeat split; [done|done|..].
        -- intros o Ho. apply Hr3, elem_of_app. by left.
        -- intros o Ho. apply Hr4 in Ho as [Ho|Ho]; [|by right].
           apply elem_of_app in Ho as [Ho|Ho]; [by left|].
           apply list_elem_of_singleton in Ho as ->. by right.
      * apply NoDup_app. repeat split; [done| |apply NoDup_singleton].
        intros o Ho Ho'. apply list_elem_of_singleton in Ho' as ->. done.
      * rewrite length_app. simpl. lia.
    + by apply IH in H.
  - intros [= <- <-]. repeat split; [lia|done|done|by left].
Qed.

Lemma build_options_padded fuel answer opts cur :
  length opts < 4 →
  build_options draw (S fuel) answer [] opts cur
  = Ok (opts ++ ["Not " +:+ answer; "None of the above"], cur).
Proof.
  intros H. cbn [build_options].
  by rewrite (proj2 (Nat.ltb_lt _ _)) by done.
Qed.

(** With some distractors, but too few distinct ones to fill four options,
    the loop never leaves: it neither pads nor reaches four options. *)
Lemma build_options_starved fuel answer ds opts cur (values : list string) :
  ds ≠ [] →
  length values < 4 →
  (∀ o, o ∈ opts → o ∈ values) → (∀ d, d ∈ ds → d ∈ values) →
  NoDup opts →
  build_options draw fuel answer ds opts cur = OutOfFuel.
Proof.
  intros Hds Hv. revert opts cur.
  induction fuel as [|fuel IH]; intros opts cur Ho Hd Hnd;
    cbn [build_options].
  all: assert (length opts < 4) as Hlt
    by (pose proof (submseteq_length _ _ (NoDup_submseteq _ _ Hnd Ho)); lia).
  all: rewrite (proj2 (Nat.ltb_lt _ _)) by done.
  { done. }
  destruct ds as [|d ds']; [done|].
  destruct (choice_spec (d :: ds') cur) as (a & Ha & Hin); [done|].
  unfold bind. rewrite Ha. case_bool_decide as Hfresh.
  - apply IH; [|done|].
    + intros o [Ho'| ->%list_elem_of_singleton]%elem_of_app; auto.
    + apply NoDup_app. repeat split; [done| |apply NoDup_singleton].
      intros o Ho1 ->%list_elem_of_singleton. done.
  - by apply IH.
Qed.

End RandomFacts.

(** ** One round of the sentence loop *)

Section QuizFacts.

Local Open Scope nat_scope.

Variable draw : nat → nat.

Lemma blank_candidates_in_range words i w :
  (i, w) ∈ blank_candidates words →
  i < length words ∧ ∃ w0, w0 ∈ words ∧ w = strip_punctuation w0.
Proof.
  unfold blank_candidates.
  intros [_ H]%list_elem_of_filter.
  apply elem_of_lookup_imap in H as (j & w0 & [= -> ->] & Hj).
  split; [by eapply lookup_lt_Some|].
  exists w0. split; [by eapply list_elem_of_lookup_2|done].
Qed.

(** One round of the loop over the candidate sentences ends in one of four
    ways: the loop stops, the sentence is skipped, the option loop does not
    return, or a question is appended and its lower-cased answer recorded. *)
Lemma quiz_loop_step fuel n pool sentence rest quiz used cur r :
  quiz_loop draw fuel n pool (sentence :: rest) quiz used cur = r →
  r = Ok (quiz, cur)
  ∨ (∃ cur1, r = quiz_loop draw fuel n pool rest quiz used cur1)
  ∨ r = OutOfFuel
  ∨ (∃ q cur1,
       built_from pool sentence q
       ∧ (Py.lower (correct_answer q) ∉ used)
       ∧ r = quiz_loop draw fuel n pool rest (quiz ++ [q])
               (used ∪ {[ Py.lower (correct_answer q) ]}) cur1).
Proof.
  intros Hr. symmetry in Hr. cbn [quiz_loop] in Hr. cbv zeta in Hr.
  destruct (Z.of_nat (length quiz) >=? n)%Z; [by left|].
  destruct (length (Py.split sentence) <? 8); [right; left; eauto|].
  destruct (blank_candidates (Py.split sentence)) as [|c cs] eqn:Ec;
    [right; left; eauto|].
  destruct (choice_spec draw (c :: cs) cur) as ([blank_idx answer] & Hch & Hin);
    [done|].
  rewrite <- Ec in Hin.
  unfold bind at 1 in Hr. rewrite Hch in Hr.
  case_bool_decide as Hused; [right; left; eauto|].
  destruct (blank_candidates_in_range _ _ _ Hin) as [Hidx _].
  unfold bind at 1, set_item in Hr.
  rewrite (proj2 (Nat.ltb_lt _ _)) in Hr by done.
  unfold ret at 1 in Hr. unfold bind at 1 in Hr.
  set (ds := filter (λ d, Py.lower d ≠ Py.lower answer) pool) in *.
  destruct (build_options draw fuel answer ds [answer] (S cur))
    as [[opts cur2]| |] eqn:Hb.
  2: { by apply build_options_no_raise in Hb. }
  2: { by right; right; left. }
  unfold bind at 1 in Hr.
  destruct (shuffle_spec draw opts cur2) as (y & cur3 & Hs & Hp).
  rewrite Hs in Hr. right; right; right.
  eexists (Quiz _ y answer), cur3. split; [|by split].
  split; [by exists blank_idx|]. cbn [correct_answer options]. fold ds.
  destruct ds as [|d ds'] eqn:Ed.
  - right. split; [done|]. rewrite Hp.
    destruct fuel as [|fuel]; [done|].
    rewrite build_options_padded in Hb by (simpl; lia).
    by injection Hb as <- _.
  - left. split; [done|].
    apply build_options_drawn in Hb as (H1 & H2 & H3 & H4);
      [|done|apply NoDup_singleton|simpl; lia].
    repeat split.
    + by rewrite Hp.
    + by rewrite Hp.
    + rewrite Hp. apply H3, list_elem_of_singleton. done.
    + intros o Ho. rewrite Hp in Ho.
      apply H4 in Ho as [Ho%list_elem_of_singleton|Ho]; auto.
Qed.

(** The sentence loop never raises: the guards of the source keep every
    random choice and every index in range. *)
Lemma quiz_loop_no_raise fuel n pool cands quiz used cur :
  quiz_loop draw fuel n pool cands quiz used cur ≠ Raise.
Proof.
  revert quiz used cur. induction cands as [|sentence rest IH];
    intros quiz used cur H; [done|].
  apply quiz_loop_step in H
    as [H|[(cur1 & H)|[H|(q & cur1 & _ & _ & H)]]]; try done.
  - symmetry in H. by apply IH in H.
  - symmetry in H. by apply IH in H.
Qed.

Lemma generate_quiz_local fuel text n cur :
  generate_quiz draw fuel text n cur
  = quiz_loop draw fuel n
      (all_potential_distractors (extract_key_points text (n * 3)))
      (extract_key_points text (n * 3)) [] ∅ cur.
Proof.
  unfold generate_quiz, try_except. cbv zeta.
  destruct (quiz_loop _ _ _ _ _ _ _ _) eqn:E; try done.
  by apply quiz_loop_no_raise in E.
Qed.

(** What the loop returns: the questions it started with, followed by
    questions built from candidate sentences, whose lower-cased answers are
    pairwise distinct and were not in use before. *)
Lemma quiz_loop_returns fuel n pool cands quiz used cur qs cur' :
  quiz_loop draw fuel n pool cands quiz used cur = Ok (qs, cur') →
  ∃ new,
    qs = quiz ++ new
    ∧ Forall (λ q, ∃ sentence, sentence ∈ cands ∧ built_from pool sentence q) new
    ∧ NoDup ((Py.lower ∘ correct_answer) <$> new)
    ∧ ∀ q, q ∈ new → Py.lower (correct_answer q) ∉ used.
Proof.
  revert quiz used cur. induction cands as [|sentence rest IH];
    intros quiz used cur H.
  { injection H as <- _. exists []. rewrite app_nil_r.
    repeat split; [constructor|constructor|]. by intros q ?%elem_of_nil. }
  apply quiz_loop_step in H
    as [H|[(cur1 & H)|[H|(q & cur1 & Hq & Hfresh & H)]]]; try done.
  - injection H as <- _. exists []. rewrite app_nil_r.
    repeat split; [constructor|constructor|]. by intros q ?%elem_of_nil.
  - symmetry in H. apply IH in H as (new & -> & Hb & Hnd & Hu).
    exists new. repeat split; [|done|done].
    eapply Forall_impl; [exact Hb|]. simpl.
    intros q (s & Hs & Hq). exists s. split; [by right|done].
  - symmetry in H. apply IH in H as (new & -> & Hb & Hnd & Hu).
    exists (q :: new). rewrite <- app_assoc. repeat split.
    + constructor.
      * exists sentence. split; [by left|done].
      * eapply Forall_impl; [exact Hb|]. simpl.
        intros q' (s & Hs & Hq'). exists s. split; [by right|done].
    + rewrite fmap_cons. constructor; [|done].
      intros (q' & Heq & Hin)%list_elem_of_fmap. simpl in Heq.
      apply (Hu q' Hin). rewrite <- Heq.
      by apply elem_of_union_r, elem_of_singleton.
    + intros q' [->|Hin]%elem_of_cons; [done|].
      intros Hq'. by apply (Hu q' Hin), elem_of_union_l.
Qed.

End QuizFacts.

(** ** Words have no whitespace *)

Lemma split_cons c r :
  Py.split (String c r)
  = if Py.is_space c then Py.split r
    else match r with
         | EmptyString => [String c EmptyString]
         | String c' _ =>
             if Py.is_space c' then String c EmptyString :: Py.split r
             else match Py.split r with
                  | w :: ws => String c w :: ws
                  | [] => [String c EmptyString]
                  end
         end.
Proof. by destruct r. Qed.

Lemma split_no_space s : Forall (λ w, no_space w = true) (Py.split s).
Proof.
  induction s as [|c r IH]; [constructor|].
  rewrite split_cons.
  destruct (Py.is_space c) eqn:Ec; [done|].
  assert (Hc : no_space (String c EmptyString) = true) by (simpl; by rewrite Ec).
  destruct r as [|c' r']; [by repeat constructor|].
  destruct (Py.is_space c'); [by constructor|].
  destruct (Py.split (String c' r')) as [|w ws]; [by repeat constructor|].
  apply Forall_cons in IH as [Hw Hws]. constructor; [|done].
  simpl. by rewrite Ec, Hw.
Qed.

Lemma lstrip_by_no_space p w :
  no_space w = true → no_space (Py.lstrip_by p w) = true.
Proof.
  induction w as [|c w IH]; [done|]. intros H. simpl.
  destruct (p c); [|done]. apply IH.
  simpl in H. by apply andb_true_iff in H as [_ ?].
Qed.

Lemma rstrip_by_no_space p w :
  no_space w = true → no_space (Py.rstrip_by p w) = true.
Proof.
  induction w as [|c w IH]; [done|]. intros H. simpl in *.
  apply andb_true_iff in H as [Hc Hw]. specialize (IH Hw).
  destruct (Py.rstrip_by p w) as [|c' w'].
  - destruct (p c); [done|]. simpl. by rewrite Hc.
  - change (no_space (String c (String c' w')) = true).
    cbn [no_space] in *. by rewrite Hc, IH.
Qed.

Lemma blank_candidate_no_space words i w :
  (i, w) ∈ blank_candidates words →
  Forall (λ w0, no_space w0 = true) words → no_space w = true.
Proof.
  intros (_ & w0 & Hw0 & ->)%blank_candidates_in_range Hwords.
  apply rstrip_by_no_space, lstrip_by_no_space.
  by eapply Forall_forall in Hwords.
Qed.

(** ** Every question that is built *)

Lemma built_from_answer_in_options pool sentence q :
  built_from pool sentence q → correct_answer q ∈ options q.
Proof.
  intros [_ [(_ & _ & _ & H & _)|[_ Hp]]]; [done|].
  rewrite Hp. by left.
Qed.

Lemma built_from_options_length pool sentence q :
  built_from pool sentence q →
  length (options q) = 4%nat ∨ length (options q) = 3%nat.
Proof.
  intros [_ [(_ & H & _)|[_ Hp]]]; [by left|].
  right. by rewrite Hp.
Qed.

Lemma built_from_options_distinct pool sentence q :
  built_from pool sentence q → NoDup (options q).
Proof.
  intros [[i Hi] [(_ & _ & H & _)|[_ Hp]]]; [done|].
  rewrite Hp.
  pose proof (blank_candidate_no_space _ _ _ Hi (split_no_space sentence))
    as Hns.
  assert (correct_answer q ≠ "Not " +:+ correct_answer q) as H1.
  { intros E%(f_equal String.length). rewrite app_length in E.
    simpl in E. lia. }
  assert (correct_answer q ≠ "None of the above") as H2.
  { intros E. by rewrite E in Hns. }
  assert ("Not " +:+ correct_answer q ≠ "None of the above") as H3.
  { by intros [=]. }
  apply NoDup_cons. split.
  { rewrite !not_elem_of_cons. by repeat split; try apply not_elem_of_nil. }
  apply NoDup_cons. split; [|apply NoDup_singleton].
  rewrite not_elem_of_cons. split; [done|apply not_elem_of_nil].
Qed.

Lemma lower_char_not_space c :
  Py.is_space c = false → Py.is_space (Py.lower_char c) = false.
Proof. by destruct c as [[] [] [] [] [] [] [] []]. Qed.

Lemma lower_no_space s : no_space s = true → no_space (Py.lower s) = true.
Proof.
  induction s as [|c s IH]; [done|]. simpl.
  intros [Hc Hs]%andb_true_iff. apply negb_true_iff in Hc.
  by rewrite (lower_char_not_space c Hc), IH.
Qed.

Lemma lower_length s : String.length (Py.lower s) = String.length s.
Proof. induction s as [|c s IH]; [done|]. simpl. by rewrite IH. Qed.

(** Every option other than the answer differs from it whatever the case. *)
Lemma built_from_options_differ_from_answer pool sentence q o :
  built_from pool sentence q →
  o ∈ options q → o ≠ correct_answer q →
  Py.lower o ≠ Py.lower (correct_answer q).
Proof.
  intros [[i Hi] [(_ & _ & _ & _ & H)|[_ Hp]]] Ho Hne.
  - apply H in Ho as [Ho|[Ho _]%list_elem_of_filter]; done.
  - pose proof (blank_candidate_no_space _ _ _ Hi (split_no_space sentence))
      as Hns.
    rewrite Hp, !elem_of_cons in Ho.
    destruct Ho as [->|[->|[->|Ho%elem_of_nil]]]; [done| | |done].
    + intros E%(f_equal String.length).
      rewrite !lower_length, app_length in E. simpl in E. lia.
    + intros E. apply lower_no_space in Hns. by rewrite <- E in Hns.
Qed.

(** ** Every question that is returned *)

Lemma generate_quiz_returns draw fuel text n cur qs cur' :
  generate_quiz draw fuel text n cur = Ok (qs, cur') →
  Forall (λ q, ∃ sentence,
            built_from
              (all_potential_distractors (extract_key_points text (n * 3)))
              sentence q) qs
  ∧ NoDup ((Py.lower ∘ correct_answer) <$> qs).
Proof.
  rewrite generate_quiz_local.
  intros (new & -> & Hb & Hnd & _)%quiz_loop_returns.
  rewrite app_nil_l. split; [|done].
  eapply Forall_impl; [exact Hb|]. simpl. intros q (s & _ & Hq). eauto.
Qed.

(** A returned question has four options, or three when no distractor was
    left for its answer. *)
Lemma returned_options_three_or_four draw fuel text n cur qs cur' :
  generate_quiz draw fuel text n cur = Ok (qs, cur') →
  Forall (λ q, length (options q) = 4%nat ∨ length (options q) = 3%nat) qs.
Proof.
  intros [Hb _]%generate_quiz_returns.
  eapply Forall_impl; [exact Hb|]. simpl.
  intros q [s Hq]. by eapply built_from_options_length.
Qed.

(** C3: in every question that [generate_quiz] returns, [correct_answer] is
    an element of [options]. *)
Theorem correct_answer_in_options (draw : nat → nat) (fuel : nat)
    (text : string) (num_questions : Z) (cur cur' : nat)
    (quiz : list QuizQuestion) :
  generate_quiz draw fuel text num_questions cur = Ok (quiz, cur') →
  Forall (λ q, correct_answer q ∈ options q) quiz.
Proof.
  intros [Hb _]%generate_quiz_returns.
  eapply Forall_impl; [exact Hb|]. simpl.
  intros q [s Hq]. by eapply built_from_answer_in_options.
Qed.

Lemma correct_answer_in_options_witness :
  generate_quiz sample_draw 20 sample_text 3 0%nat = Ok (sample_quiz, 21%nat)
  ∧ Forall (λ q, correct_answer q ∈ options q) sample_quiz.
Proof.
  assert (H : generate_quiz sample_draw 20 sample_text 3 0%nat
              = Ok (sample_quiz, 21%nat)) by (by vm_compute).
  split; [exact H|].
  exact (correct_answer_in_options _ _ _ _ _ _ _ H).
Defined.

(** C4, as stated, fails: a pool holding "Network" and "network" can put both
    among the options of one question. *)
Lemma options_can_clash_ignoring_case :
  let draw := λ cur, nth cur [2; 0; 1; 2; 0; 0; 0]%nat 0%nat in
  let text := "The Network layer joins every network of elephant and giraffe herds" in
  let q := Quiz
    (question_text ["The"; "Network"; "layer"; "joins"; "every"; "network";
                    "of"; "__________"; "and"; "giraffe"; "herds."])
    ["Network"; "network"; "giraffe"; "elephant"] "elephant" in
  generate_quiz draw 3 text 1 0%nat = Ok ([q], 7%nat)
  ∧ ¬ NoDup (Py.lower <$> options q).
Proof.
  split; [by vm_compute|].
  vm_compute. intros H. apply NoDup_cons in H as [H _]. apply H. by left.
Qed.

(** C4, amended: in every question that [generate_quiz] returns, the
    elements of [options] are pairwise distinct under exact (case-sensitive)
    comparison, and every option other than [correct_answer] differs from
    [correct_answer] under case-insensitive comparison too. *)
Theorem options_pairwise_distinct (draw : nat → nat) (fuel : nat)
    (text : string) (num_questions : Z) (cur cur' : nat)
    (quiz : list QuizQuestion) :
  generate_quiz draw fuel text num_questions cur = Ok (quiz, cur') →
  Forall (λ q, NoDup (options q)
               ∧ ∀ o, o ∈ options q → o ≠ correct_answer q →
                      Py.lower o ≠ Py.lower (correct_answer q)) quiz.
Proof.
  intros [Hb _]%generate_quiz_returns.
  eapply Forall_impl; [exact Hb|]. simpl.
  intros q [s Hq]. split; [by eapply built_from_options_distinct|].
  intros o. by eapply built_from_options_differ_from_answer.
Qed.

Lemma options_pairwise_distinct_witness :
  generate_quiz sample_draw 20 sample_text 3 0%nat = Ok (sample_quiz, 21%nat)
  ∧ Forall (λ q, NoDup (options q)
                 ∧ ∀ o, o ∈ options q → o ≠ correct_answer q →
                        Py.lower o ≠ Py.lower (correct_answer q)) sample_quiz.
Proof.
  assert (H : generate_quiz sample_draw 20 sample_text 3 0%nat
              = Ok (sample_quiz, 21%nat)) by (by vm_compute).
  split; [exact H|].
  exact (options_pairwise_distinct _ _ _ _ _ _ _ H).
Defined.

(** C9: the questions returned by one call to [generate_quiz] have pairwise
    distinct [correct_answer] values under case-insensitive comparison,
    however many questions are returned. *)
Theorem correct_answers_distinct (draw : nat → nat) (fuel : nat)
    (text : string) (num_questions : Z) (cur cur' : nat)
    (quiz : list QuizQuestion) :
  generate_quiz draw fuel text num_questions cur = Ok (quiz, cur') →
  NoDup ((λ q, Py.lower (correct_answer q)) <$> quiz).
Proof. by intros [_ Hnd]%generate_quiz_returns. Qed.

Lemma correct_answers_distinct_witness :
  generate_quiz sample_draw 20 sample_text 3 0%nat = Ok (sample_quiz, 21%nat)
  ∧ NoDup ((λ q, Py.lower (correct_answer q)) <$> sample_quiz).
Proof.
  assert (H : generate_quiz sample_draw 20 sample_text 3 0%nat
              = Ok (sample_quiz, 21%nat)) by (by vm_compute).
  split; [exact H|].
  exact (correct_answers_distinct _ _ _ _ _ _ _ H).
Defined.

(** ** Too few distractors *)

Lemma choice_singleton {A} draw (x : A) cur :
  choice draw [x] cur = Ok (x, S cur).
Proof.
  destruct (choice_spec draw [x] cur) as (a & Ha & Hin); [done|].
  by apply list_elem_of_singleton in Hin as ->.
Qed.

(** C1, on the source: a sentence with a single blankable word leaves no
    distractor for its answer, and the question built from it has three
    options, the answer and the two filler options, whatever the random
    source produces. *)
Theorem one_distractor_free_question_has_three_options
    (draw : nat → nat) (fuel cur : nat) :
  ∃ q cur',
    generate_quiz draw (S fuel) one_word_text 1 cur = Ok ([q], cur')
    ∧ correct_answer q = "elephant"
    ∧ options q ≡ₚ ["elephant"; "Not elephant"; "None of the above"]
    ∧ length (options q) = 3%nat.
Proof.
  rewrite generate_quiz_local.
  replace (extract_key_points one_word_text (1 * 3))
    with ["The cat sat on the mat with elephant today."] by (by vm_compute).
  replace (all_potential_distractors
             ["The cat sat on the mat with elephant today."])
    with ["elephant"] by (by vm_compute).
  cbn [quiz_loop]. cbv zeta.
  replace (Py.split "The cat sat on the mat with elephant today.")
    with ["The"; "cat"; "sat"; "on"; "the"; "mat"; "with"; "elephant"; "today."]
    by (by vm_compute).
  replace (blank_candidates
             ["The"; "cat"; "sat"; "on"; "the"; "mat"; "with"; "elephant"; "today."])
    with [(7%nat, "elephant")] by (by vm_compute).
  cbn [length Nat.ltb Nat.leb].
  change (Z.of_nat 0 >=? 1)%Z with false. cbv iota.
  unfold bind at 1. rewrite choice_singleton.
  rewrite bool_decide_eq_false_2 by apply not_elem_of_empty.
  unfold bind at 1, set_item. cbn [length Nat.ltb Nat.leb]. unfold ret at 1.
  replace (filter (λ d, Py.lower d ≠ Py.lower "elephant") ["elephant"])
    with (@nil string) by (by vm_compute).
  unfold bind at 1. rewrite build_options_padded by (simpl; lia).
  unfold bind at 1.
  destruct (shuffle_spec draw
              (["elephant"] ++ ["Not " +:+ "elephant"; "None of the above"])
              (S cur)) as (y & cur' & Hy & Hp).
  rewrite Hy. eexists _, _. split; [done|]. cbn [correct_answer options].
  split; [done|]. split; [done|]. by rewrite Hp.
Qed.

(** C5, on the source: a sentence with two blankable words leaves one
    distractor for its answer; the option loop then draws it for ever, and
    [generate_quiz] produces no result, however long it runs and whatever the
    random source produces. *)
Theorem two_word_sentence_never_returns (draw : nat → nat) (fuel cur : nat) :
  generate_quiz draw fuel two_word_text 1 cur = OutOfFuel.
Proof.
  rewrite generate_quiz_local.
  replace (extract_key_points two_word_text (1 * 3))
    with ["The cat sat on the mat with elephant and giraffe."]
    by (by vm_compute).
  replace (all_potential_distractors
             ["The cat sat on the mat with elephant and giraffe."])
    with ["elephant"; "giraffe"] by (by vm_compute).
  cbn [quiz_loop]. cbv zeta.
  replace (Py.split "The cat sat on the mat with elephant and giraffe.")
    with ["The"; "cat"; "sat"; "on"; "the"; "mat"; "with"; "elephant"; "and";
          "giraffe."]
    by (by vm_compute).
  replace (blank_candidates
             ["The"; "cat"; "sat"; "on"; "the"; "mat"; "with"; "elephant"; "and";
              "giraffe."])
    with [(7%nat, "elephant"); (9%nat, "giraffe")] by (by vm_compute).
  cbn [length Nat.ltb Nat.leb].
  change (Z.of_nat 0 >=? 1)%Z with false. cbv iota.
  destruct (choice_spec draw [(7%nat, "elephant"); (9%nat, "giraffe")] cur)
    as ([blank_idx answer] & Hch & Hin); [done|].
  unfold bind at 1. rewrite Hch.
  rewrite bool_decide_eq_false_2 by apply not_elem_of_empty.
  unfold bind at 1, set_item.
  assert (Hcases : (blank_idx, answer) = (7%nat, "elephant")
                   ∨ (blank_idx, answer) = (9%nat, "giraffe")).
  { apply elem_of_cons in Hin as [?|?%list_elem_of_singleton]; auto. }
  destruct Hcases as [[= -> ->]|[= -> ->]].
  all: cbn [length Nat.ltb Nat.leb]; unfold ret at 1; unfold bind at 1.
  - replace (filter (λ d, Py.lower d ≠ Py.lower "elephant")
               ["elephant"; "giraffe"])
      with ["giraffe"] by (by vm_compute).
    rewrite (build_options_starved draw fuel "elephant" ["giraffe"]
               ["elephant"] (S cur) ["elephant"; "giraffe"]);
      [done|done|simpl; lia|solve_included..|apply NoDup_singleton].
  - replace (filter (λ d, Py.lower d ≠ Py.lower "giraffe")
               ["elephant"; "giraffe"])
      with ["elephant"] by (by vm_compute).
    rewrite (build_options_starved draw fuel "giraffe" ["elephant"]
               ["giraffe"] (S cur) ["elephant"; "giraffe"]);
      [done|done|simpl; lia|solve_included..|apply NoDup_singleton].
Qed.

(** * Further properties of the key-point ranker *)

Section RankerFacts.

Local Open Scope nat_scope.

Lemma re_split_no_terminator text :
  Forall (λ f, no_terminator f = true) (re_split_terminators text).
Proof.
  induction text as [|c r IH]; [by repeat constructor|].
  cbn [re_split_terminators].
  destruct (is_terminator c) eqn:Ec.
  - destruct r as [|c' r']; [by repeat constructor|].
    destruct (is_terminator c'); [done|by constructor].
  - destruct (re_split_terminators r) as [|f fs]; [|apply Forall_cons in IH as [Hf Hfs]].
    + repeat constructor. simpl. by rewrite Ec.
    + constructor; [|done]. simpl. by rewrite Ec, Hf.
Qed.

Lemma lstrip_by_no_terminator p s :
  no_terminator s = true → no_terminator (Py.lstrip_by p s) = true.
Proof.
  induction s as [|c s IH]; [done|]. intros H. simpl.
  destruct (p c); [|done]. apply IH.
  simpl in H. by apply andb_true_iff in H as [_ ?].
Qed.

Lemma rstrip_by_no_terminator p s :
  no_terminator s = true → no_terminator (Py.rstrip_by p s) = true.
Proof.
  induction s as [|c s IH]; [done|]. intros H. simpl in *.
  apply andb_true_iff in H as [Hc Hs]. specialize (IH Hs).
  destruct (Py.rstrip_by p s) as [|c' s'].
  - destruct (p c); [done|]. simpl. by rewrite Hc.
  - change (no_terminator (String c (String c' s')) = true).
    cbn [no_terminator] in *. by rewrite Hc, IH.
Qed.

Lemma no_terminator_endswith s :
  no_terminator s = true → Py.endswith is_terminator s = false.
Proof.
  unfold Py.endswith. induction s as [|c s IH]; [done|].
  simpl. intros [Hc Hs]%andb_true_iff.
  destruct s as [|c' s']; [by apply negb_true_iff|by apply IH].
Qed.

Lemma qualifying_sentences_no_terminator text :
  Forall (λ s, no_terminator s = true) (qualifying_sentences text).
Proof.
  unfold qualifying_sentences. apply Forall_fmap, Forall_forall.
  intros s [_ Hs]%list_elem_of_filter. simpl.
  apply rstrip_by_no_terminator, lstrip_by_no_terminator.
  pose proof (re_split_no_terminator text) as H.
  rewrite Forall_forall in H. by apply H.
Qed.

Lemma add_period_no_terminator s :
  no_terminator s = true → add_period s = s +:+ ".".
Proof. intros H. unfold add_period. by rewrite no_terminator_endswith. Qed.

Lemma normalize_qualifying text s :
  s ∈ qualifying_sentences text → normalize s = s +:+ ".".
Proof.
  intros Hs.
  pose proof (qualifying_sentences_stripped text) as H1.
  pose proof (qualifying_sentences_no_terminator text) as H2.
  rewrite Forall_forall in H1, H2.
  rewrite normalize_stripped by auto. by apply add_period_no_terminator, H2.
Qed.

Lemma add_period_qualifying text s :
  s ∈ qualifying_sentences text → add_period s = s +:+ ".".
Proof.
  intros Hs. pose proof (qualifying_sentences_no_terminator text) as H2.
  rewrite Forall_forall in H2. by apply add_period_no_terminator, H2.
Qed.

Lemma scored_of_elem sentences x :
  x ∈ scored_of sentences →
  sentences !! sc_idx x = Some (sc_sentence x)
  ∧ sc_score x = sentence_score (sc_idx x) (sc_sentence x).
Proof.
  unfold scored_of. intros (i & s & -> & Hs)%elem_of_lookup_imap. by split.
Qed.

Lemma scored_of_length sentences :
  length (scored_of sentences) = length sentences.
Proof. unfold scored_of. apply length_imap. Qed.

End RankerFacts.

(** X1: The key points are the sentinel, or sentences of the text: whatever mark
    ended a sentence, the key point made from it is the trimmed sentence
    followed by a full stop. *)
Theorem key_points_are_sentences (text : string) (num_points : Z) :
  extract_key_points text num_points = ["No key points could be extracted."]
  ∨ Forall (λ r, ∃ s, s ∈ qualifying_sentences text ∧ r = s +:+ ".")
      (extract_key_points text num_points).
Proof.
  unfold extract_key_points.
  destruct (qualifying_sentences text) as [|s0 ss] eqn:E; [by left|].
  right. rewrite <- E. clear E s0 ss.
  destruct (Z.of_nat (length (qualifying_sentences text)) <=? num_points).
  - apply Forall_fmap, Forall_forall. intros s Hs. simpl.
    exists s. split; [done|]. by eapply add_period_qualifying.
  - apply Forall_fmap. rewrite sort_by_idx_perm.
    assert (Forall (λ x, sc_sentence x ∈ qualifying_sentences text)
              (sort_by_score_desc (scored_of (qualifying_sentences text)))) as H.
    { rewrite sort_by_score_desc_perm. apply Forall_forall.
      intros x [Hx _]%scored_of_elem. by eapply list_elem_of_lookup_2. }
    assert (Forall (λ x, sc_sentence x ∈ qualifying_sentences text)
              (Py.slice_to num_points
                 (sort_by_score_desc (scored_of (qualifying_sentences text))))) as H'.
    { unfold Py.slice_to. destruct (0 <=? num_points); by apply Forall_take. }
    eapply Forall_impl; [exact H'|]. simpl. intros x Hx.
    exists (sc_sentence x). split; [done|]. by eapply normalize_qualifying.
Qed.

(** X2: With at least one qualifying sentence and [num_points ≥ 0], the number of
    key points is the smaller of [num_points] and the number of qualifying
    sentences; with no qualifying sentence it is one, the sentinel. *)
Theorem key_points_count (text : string) (num_points : Z) :
  0 ≤ num_points →
  length (extract_key_points text num_points)
  = match qualifying_sentences text with
    | [] => 1%nat
    | _ => Nat.min (Z.to_nat num_points) (length (qualifying_sentences text))
    end.
Proof.
  intros Hn. unfold extract_key_points.
  destruct (qualifying_sentences text) as [|s0 ss] eqn:E; [done|].
  rewrite <- E. clear E s0 ss.
  destruct (Z.leb_spec (Z.of_nat (length (qualifying_sentences text))) num_points).
  - rewrite length_fmap. lia.
  - rewrite length_fmap, sort_by_idx_perm. unfold Py.slice_to.
    rewrite (proj2 (Z.leb_le 0 num_points)) by done.
    rewrite length_take, sort_by_score_desc_perm, scored_of_length. lia.
Qed.

Lemma key_points_count_witness :
  length (extract_key_points sample_text 2)
  = match qualifying_sentences sample_text with
    | [] => 1%nat
    | _ => Nat.min (Z.to_nat 2) (length (qualifying_sentences sample_text))
    end.
Proof. apply (key_points_count sample_text 2). lia. Defined.

Section SelectionFacts.

Local Open Scope nat_scope.

Lemma strongly_sorted_by_idx (l : list scored_sentence) :
  StronglySorted lt (sc_idx <$> l) →
  StronglySorted (λ x y, sc_idx x < sc_idx y) l.
Proof.
  induction l as [|x l IH]; [constructor|].
  rewrite fmap_cons. intros [Hx Hl]%StronglySorted_cons.
  constructor; [by apply IH|]. rewrite Forall_fmap in Hx. exact Hx.
Qed.

Lemma insert_by_score_desc_ranked x l :
  Forall (λ y, sc_idx x < sc_idx y) l →
  StronglySorted ranks_before l →
  StronglySorted ranks_before (insert_by_score_desc x l).
Proof.
  induction l as [|y l IH]; intros Hx Hl; [by repeat constructor|].
  apply Forall_cons in Hx as [Hxy Hx].
  apply StronglySorted_cons in Hl as [Hy Hl].
  simpl. destruct (Z.ltb_spec (sc_score x) (sc_score y)) as [Hlt|Hge].
  - apply StronglySorted_cons. split; [|by apply IH].
    rewrite insert_by_score_desc_perm. constructor; [by left|done].
  - apply StronglySorted_cons. split; [|by apply StronglySorted_cons].
    constructor.
    + unfold ranks_before. lia.
    + rewrite Forall_forall in Hy, Hx. apply Forall_forall. intros z Hz.
      specialize (Hy z Hz). specialize (Hx z Hz).
      unfold ranks_before in *. lia.
Qed.

(** The stable sort by decreasing score of a list given in position order
    ranks its elements by score, then by position. *)
Lemma sort_by_score_desc_ranked l :
  StronglySorted (λ x y, sc_idx x < sc_idx y) l →
  StronglySorted ranks_before (sort_by_score_desc l).
Proof.
  induction l as [|x l IH]; [constructor|].
  intros [Hx Hl]%StronglySorted_cons. simpl.
  apply insert_by_score_desc_ranked; [|by apply IH].
  by rewrite sort_by_score_desc_perm.
Qed.

Lemma scored_of_ranked sentences :
  StronglySorted ranks_before (sort_by_score_desc (scored_of sentences)).
Proof.
  apply sort_by_score_desc_ranked, strongly_sorted_by_idx.
  rewrite scored_of_idx. apply seq_strictly_sorted.
Qed.

End SelectionFacts.

(** X3: When there are more qualifying sentences than [k ≥ 0], the [k] key points
    are the best-ranked sentences: the sentences at the returned positions
    each outrank every sentence left out, by a higher score or by the same
    score at an earlier position; they are returned in position order. *)
Theorem key_points_are_top_ranked (text : string) (k : Z) :
  0 ≤ k < Z.of_nat (length (qualifying_sentences text)) →
  ∃ idxs : list nat,
    StronglySorted lt idxs
    ∧ length idxs = Z.to_nat k
    ∧ Forall2 (λ i r, ∃ s, qualifying_sentences text !! i = Some s
                          ∧ r = s +:+ ".")
        idxs (extract_key_points text k)
    ∧ ∀ i j si sj,
        i ∈ idxs → j ∉ idxs →
        qualifying_sentences text !! i = Some si →
        qualifying_sentences text !! j = Some sj →
        sentence_score j sj < sentence_score i si
        ∨ (sentence_score i si = sentence_score j sj ∧ (i < j)%nat).
Proof.
  intros [Hk Hlen]. unfold extract_key_points.
  destruct (qualifying_sentences text) as [|s0 ss] eqn:E.
  { simpl in Hlen. lia. }
  rewrite <- E in *. clear E s0 ss.
  set (sentences := qualifying_sentences text) in *.
  rewrite (proj2 (Z.leb_gt _ _)) by lia.
  unfold Py.slice_to. rewrite (proj2 (Z.leb_le 0 k)) by lia.
  set (sorted := sort_by_score_desc (scored_of sentences)).
  set (chosen := take (Z.to_nat k) sorted).
  assert (Hsorted : StronglySorted ranks_before (chosen ++ drop (Z.to_nat k) sorted)).
  { unfold chosen. rewrite take_drop. apply scored_of_ranked. }
  assert (Hsound : ∀ x, x ∈ sorted → x ∈ scored_of sentences).
  { intros x. unfold sorted. by rewrite sort_by_score_desc_perm. }
  assert (Hchosen : ∀ x, x ∈ chosen → x ∈ sorted).
  { intros x (i & Hi & _)%elem_of_take. by eapply list_elem_of_lookup_2. }
  exists (sc_idx <$> sort_by_idx chosen). repeat split.
  - apply sort_by_idx_sorted. unfold chosen, sorted. rewrite fmap_take.
    eapply sublist_NoDup; [|apply sublist_take].
    rewrite sort_by_score_desc_perm, scored_of_idx. apply NoDup_seq.
  - rewrite length_fmap, sort_by_idx_perm. unfold chosen.
    rewrite length_take_le; [done|].
    unfold sorted. rewrite sort_by_score_desc_perm, scored_of_length. lia.
  - apply Forall2_fmap, Forall_Forall2_diag, Forall_forall.
    intros x Hx. rewrite sort_by_idx_perm in Hx.
    apply Hchosen, Hsound, scored_of_elem in Hx as [Hx _].
    exists (sc_sentence x). split; [done|].
    eapply normalize_qualifying, list_elem_of_lookup_2, Hx.
  - intros i j si sj Hi Hj Hsi Hsj.
    apply list_elem_of_fmap in Hi as (x & -> & Hx).
    rewrite sort_by_idx_perm in Hx.
    set (y := Scored (sentence_score j sj) sj j).
    assert (Hy : y ∈ sorted).
    { unfold sorted. rewrite sort_by_score_desc_perm.
      eapply list_elem_of_lookup_2, scored_of_lookup, Hsj. }
    rewrite <- (take_drop (Z.to_nat k) sorted) in Hy.
    apply elem_of_app in Hy as [Hy|Hy].
    { exfalso. apply Hj. apply list_elem_of_fmap. exists y.
      split; [done|]. by rewrite sort_by_idx_perm. }
    pose proof (StronglySorted_app_1_elem_of _ _ _ _ _ Hsorted Hx Hy) as Hr.
    apply Hchosen, Hsound, scored_of_elem in Hx as [Hx1 Hx2].
    rewrite Hsi in Hx1. injection Hx1 as Hx1. rewrite <- Hx1 in Hx2.
    unfold ranks_before in Hr. rewrite Hx2 in Hr. simpl in Hr. lia.
Qed.

Lemma key_points_are_top_ranked_witness :
  ∃ idxs : list nat,
    StronglySorted lt idxs
    ∧ length idxs = Z.to_nat 2
    ∧ Forall2 (λ i r, ∃ s, qualifying_sentences sample_text !! i = Some s
                          ∧ r = s +:+ ".")
        idxs (extract_key_points sample_text 2)
    ∧ ∀ i j si sj,
        i ∈ idxs → j ∉ idxs →
        qualifying_sentences sample_text !! i = Some si →
        qualifying_sentences sample_text !! j = Some sj →
        sentence_score j sj < sentence_score i si
        ∨ (sentence_score i si = sentence_score j sj ∧ (i < j)%nat).
Proof.
  apply (key_points_are_top_ranked sample_text 2).
  split; [lia|]. vm_compute. done.
Defined.

(** X4: The score of a sentence lies between 5 and 68, and the same sentence
    never scores higher at a later position. *)
Theorem sentence_score_range (idx idx' : nat) (sentence : string) :
  5 ≤ sentence_score idx sentence ≤ 68
  ∧ ((idx ≤ idx')%nat →
     sentence_score idx' sentence ≤ sentence_score idx sentence).
Proof.
  unfold sentence_score. cbv zeta. rewrite keyword_bonus.
  assert (terms_present sentence ≤ 6)%nat as Hterms.
  { unfold terms_present.
    assert (size important_keywords = 6%nat) as <- by (by vm_compute).
    apply subseteq_size. by intros k [_ ?]%elem_of_filter. }
  assert (0 ≤ Z.of_nat idx `div` 3) by (apply Z.div_pos; lia).
  split.
  - destruct ((10 <=? Z.of_nat (length (Py.split sentence)))
             && (Z.of_nat (length (Py.split sentence)) <=? 25)); lia.
  - intros Hle.
    assert (Z.of_nat idx `div` 3 ≤ Z.of_nat idx' `div` 3)
      by (apply Z.div_le_mono; lia).
    lia.
Qed.

(** * The other paths of the key-point extraction *)

Section OtherPaths.

Local Open Scope nat_scope.

Lemma slice_to_length {A} (n : Z) (l : list A) :
  (0 ≤ n)%Z → length (Py.slice_to n l) ≤ Z.to_nat n.
Proof.
  intros Hn. unfold Py.slice_to. rewrite (proj2 (Z.leb_le 0 n)) by done.
  rewrite length_take. lia.
Qed.

Lemma slice_to_Forall {A} (P : A → Prop) (n : Z) (l : list A) :
  Forall P l → Forall P (Py.slice_to n l).
Proof. intros H. unfold Py.slice_to. destruct (0 <=? n)%Z; by apply Forall_take. Qed.

Lemma lstripped_weaken (p p' : ascii → bool) s :
  (∀ c, p' c = true → p c = true) → lstripped p s → lstripped p' s.
Proof.
  intros Hp. destruct s as [|c s]; [done|]. simpl. intros Hc.
  destruct (p' c) eqn:E; [|done]. apply Hp in E. congruence.
Qed.

Lemma lstripped_rstrip_other (p p' : ascii → bool) s :
  lstripped p s → lstripped p (Py.rstrip_by p' s).
Proof.
  destruct s as [|c s]; [done|]. simpl. intros Hc.
  destruct (Py.rstrip_by p' s); [by destruct (p' c)|done].
Qed.

End OtherPaths.

(** X6: A point parsed from the answer of the hosted model carries no list mark
    and no blank around it: it is empty or starts with a character that is
    not whitespace, a hyphen, an asterisk, a digit or a full stop, and it is
    trimmed; for [num_points ≥ 0] at most [num_points] points are kept. *)
Theorem parsed_points_are_clean (raw : string) (num_points : Z) :
  Forall (λ p, lstripped is_list_mark p ∧ Py.strip p = p)
    (parse_key_points raw num_points)
  ∧ (0 ≤ num_points →
     (length (parse_key_points raw num_points) ≤ Z.to_nat num_points)%nat).
Proof.
  split; [|intros Hn; by apply slice_to_length].
  unfold parse_key_points. apply slice_to_Forall, Forall_fmap, Forall_forall.
  intros line _. simpl. split; [|apply strip_idemp].
  unfold Py.strip, Py.strip_by.
  pose proof (lstripped_lstrip is_list_mark line) as H.
  rewrite (lstrip_by_lstripped Py.is_space).
  - by apply lstripped_rstrip_other.
  - eapply lstripped_weaken; [|exact H].
    intros c Hc. unfold is_list_mark. by rewrite Hc.
Qed.



(** * Further properties of the quiz synthesizer *)

Section QuizRounds.

Local Open Scope nat_scope.

Variable draw : nat → nat.

Lemma blank_candidates_elem words i w :
  (i, w) ∈ blank_candidates words →
  is_blankable w = true
  ∧ ∃ w0, words !! i = Some w0 ∧ w = strip_punctuation w0.
Proof.
  unfold blank_candidates.
  intros [Hb H]%list_elem_of_filter. simpl in Hb.
  apply elem_of_lookup_imap in H as (j & w0 & [= -> ->] & Hj).
  split; [by apply Is_true_true|]. by exists w0.
Qed.

(** One round of the sentence loop, with what the appended question is made
    of and the test that let it be appended. *)
Lemma quiz_loop_round fuel n pool sentence rest quiz used cur r :
  quiz_loop draw fuel n pool (sentence :: rest) quiz used cur = r →
  r = Ok (quiz, cur)
  ∨ (∃ cur1, r = quiz_loop draw fuel n pool rest quiz used cur1)
  ∨ r = OutOfFuel
  ∨ (∃ q cur1 used',
       (Z.of_nat (length quiz) < n)%Z
       ∧ blanked_from sentence q
       ∧ r = quiz_loop draw fuel n pool rest (quiz ++ [q]) used' cur1).
Proof.
  intros Hr. symmetry in Hr. cbn [quiz_loop] in Hr. cbv zeta in Hr.
  destruct (Z.geb_spec (Z.of_nat (length quiz)) n) as [Hge|Hlt]; [by left|].
  destruct (Nat.ltb_spec (length (Py.split sentence)) 8) as [Hshort|Hlong];
    [right; left; eauto|].
  destruct (blank_candidates (Py.split sentence)) as [|c cs] eqn:Ec;
    [right; left; eauto|].
  destruct (choice_spec draw (c :: cs) cur) as ([blank_idx answer] & Hch & Hin);
    [done|].
  rewrite <- Ec in Hin.
  unfold bind at 1 in Hr. rewrite Hch in Hr.
  case_bool_decide as Hused; [right; left; eauto|].
  destruct (blank_candidates_in_range _ _ _ Hin) as [Hidx _].
  destruct (blank_candidates_elem _ _ _ Hin) as (Hb & w0 & Hw0 & Hw).
  unfold bind at 1, set_item in Hr.
  rewrite (proj2 (Nat.ltb_lt _ _)) in Hr by done.
  unfold ret at 1 in Hr. unfold bind at 1 in Hr.
  destruct (build_options draw fuel answer _ [answer] (S cur))
    as [[opts cur2]| |] eqn:Hbuild.
  2: { by apply build_options_no_raise in Hbuild. }
  2: { by right; right; left. }
  unfold bind at 1 in Hr.
  destruct (shuffle_spec draw opts cur2) as (y & cur3 & Hs & _).
  rewrite Hs in Hr. right; right; right.
  eexists (Quiz _ y answer), cur3, _. split; [lia|]. split; [|exact Hr].
  exists blank_idx, w0. by repeat split.
Qed.

(** The questions the loop appends blank distinct candidate sentences, in
    the order of the sentences, and the loop stops appending at
    [num_questions]. *)
Lemma quiz_loop_blanks fuel n pool cands quiz used cur qs cur' :
  quiz_loop draw fuel n pool cands quiz used cur = Ok (qs, cur') →
  ∃ new sentences,
    qs = quiz ++ new
    ∧ sentences `sublist_of` cands
    ∧ Forall2 blanked_from sentences new
    ∧ (Z.of_nat (length qs) ≤ Z.max (Z.of_nat (length quiz)) n)%Z.
Proof.
  revert quiz used cur. induction cands as [|sentence rest IH];
    intros quiz used cur H.
  { injection H as <- _. exists [], []. rewrite app_nil_r.
    repeat split; [done|constructor|lia]. }
  apply quiz_loop_round in H
    as [H|[(cur1 & H)|[H|(q & cur1 & used' & Hlt & Hq & H)]]]; try done.
  - injection H as <- _. exists [], []. rewrite app_nil_r.
    repeat split; [apply sublist_nil_l|constructor|lia].
  - symmetry in H. apply IH in H as (new & ss & -> & Hsub & Hb & Hn).
    exists new, ss. repeat split; [by apply sublist_cons|done|done].
  - symmetry in H. apply IH in H as (new & ss & -> & Hsub & Hb & Hn).
    exists (q :: new), (sentence :: ss). rewrite <- app_assoc.
    repeat split; [by apply sublist_skip|by constructor|].
    rewrite !length_app in Hn. rewrite length_app. simpl in *. lia.
Qed.

Lemma all_potential_distractors_elem cands d :
  d ∈ all_potential_distractors cands →
  ∃ sentence, sentence ∈ cands ∧ d ∈ valid_words sentence.
Proof.
  unfold all_potential_distractors.
  assert (∀ acc, d ∈ foldl (λ pool sentence, pool ++ valid_words sentence) acc cands →
                 d ∈ acc ∨ ∃ sentence, sentence ∈ cands ∧ d ∈ valid_words sentence)
    as H.
  { induction cands as [|s cands IH]; intros acc Hd; [by left|].
    simpl in Hd. apply IH in Hd as [Hd|(s' & Hs' & Hd)].
    - apply elem_of_app in Hd as [Hd|Hd]; [by left|].
      right. exists s. split; [by left|done].
    - right. exists s'. split; [by right|done]. }
  intros Hd. apply H in Hd as [Hd%elem_of_nil|Hd]; done.
Qed.

Lemma valid_words_elem sentence d :
  d ∈ valid_words sentence →
  is_blankable d = true
  ∧ ∃ w, w ∈ Py.split sentence ∧ d = strip_punctuation w.
Proof.
  unfold valid_words. cbv zeta.
  intros [Hb (w & -> & Hw)%list_elem_of_fmap]%list_elem_of_filter.
  split; [by apply Is_true_true|]. by exists w.
Qed.

Lemma quiz_loop_skips fuel n pool cands quiz used cur :
  Forall (λ s, length (Py.split s) < 8
               ∨ blank_candidates (Py.split s) = []) cands →
  quiz_loop draw fuel n pool cands quiz used cur = Ok (quiz, cur).
Proof.
  induction 1 as [|s cands Hs _ IH]; [done|].
  cbn [quiz_loop]. cbv zeta.
  destruct (Z.of_nat (length quiz) >=? n)%Z; [done|].
  destruct (Nat.ltb_spec (length (Py.split s)) 8) as [?|Hlong]; [done|].
  destruct Hs as [?| ->]; [lia|done].
Qed.

Lemma quiz_loop_none_wanted fuel n pool cands used cur :
  (n ≤ 0)%Z → quiz_loop draw fuel n pool cands [] used cur = Ok ([], cur).
Proof.
  intros Hn. destruct cands as [|s cands]; [done|].
  cbn [quiz_loop]. by rewrite (proj2 (Z.geb_le _ _)) by (simpl; lia).
Qed.

End QuizRounds.

(** X8: Every question of a returned quiz blanks one word of a candidate
    sentence of at least 8 words; the blanked word, without the punctuation
    around it, is the correct answer, is longer than 5 characters and is not
    a stop word; the questions come from distinct candidate sentences, in the
    order of the sentences. *)
Theorem quiz_questions_blank_sentences (draw : nat → nat) (fuel : nat)
    (text : string) (num_questions : Z) (cur cur' : nat)
    (quiz : list QuizQuestion) :
  generate_quiz draw fuel text num_questions cur = Ok (quiz, cur') →
  ∃ sentences,
    sentences `sublist_of` extract_key_points text (num_questions * 3)
    ∧ Forall2 blanked_from sentences quiz.
Proof.
  rewrite generate_quiz_local.
  intros (new & ss & -> & Hsub & Hb & _)%quiz_loop_blanks.
  exists ss. by rewrite app_nil_l.
Qed.

Lemma quiz_questions_blank_sentences_witness :
  generate_quiz sample_draw 20 sample_text 3 0%nat = Ok (sample_quiz, 21%nat)
  ∧ ∃ sentences,
      sentences `sublist_of` extract_key_points sample_text (3 * 3)
      ∧ Forall2 blanked_from sentences sample_quiz.
Proof.
  assert (H : generate_quiz sample_draw 20 sample_text 3 0%nat
              = Ok (sample_quiz, 21%nat)) by (by vm_compute).
  split; [exact H|].
  exact (quiz_questions_blank_sentences _ _ _ _ _ _ _ H).
Defined.

(** X9: A returned quiz never has more than [num_questions] questions (none for
    [num_questions ≤ 0]). *)
Theorem quiz_size (draw : nat → nat) (fuel : nat)
    (text : string) (num_questions : Z) (cur cur' : nat)
    (quiz : list QuizQuestion) :
  generate_quiz draw fuel text num_questions cur = Ok (quiz, cur') →
  Z.of_nat (length quiz) ≤ Z.max 0 num_questions.
Proof.
  rewrite generate_quiz_local.
  by intros (new & ss & -> & _ & _ & Hn)%quiz_loop_blanks.
Qed.

Lemma quiz_size_witness :
  generate_quiz sample_draw 20 sample_text 3 0%nat = Ok (sample_quiz, 21%nat)
  ∧ Z.of_nat (length sample_quiz) ≤ Z.max 0 3.
Proof.
  assert (H : generate_quiz sample_draw 20 sample_text 3 0%nat
              = Ok (sample_quiz, 21%nat)) by (by vm_compute).
  split; [exact H|].
  exact (quiz_size _ _ _ _ _ _ _ H).
Defined.

(** X10: Every option of a returned question is the correct answer, one of the
    two filler options, or a word of a candidate sentence (without the
    punctuation around it) that is longer than 5 characters and is not a stop
    word. *)
Theorem options_come_from_the_text (draw : nat → nat) (fuel : nat)
    (text : string) (num_questions : Z) (cur cur' : nat)
    (quiz : list QuizQuestion) :
  generate_quiz draw fuel text num_questions cur = Ok (quiz, cur') →
  Forall (λ q, ∀ o, o ∈ options q →
            o = correct_answer q
            ∨ o = "Not " +:+ correct_answer q
            ∨ o = "None of the above"
            ∨ (is_blankable o = true
               ∧ ∃ sentence w,
                   sentence ∈ extract_key_points text (num_questions * 3)
                   ∧ w ∈ Py.split sentence
                   ∧ o = strip_punctuation w)) quiz.
Proof.
  intros [Hb _]%generate_quiz_returns.
  eapply Forall_impl; [exact Hb|]. simpl.
  intros q [s [_ [(_ & _ & _ & _ & H)|[_ Hp]]]] o Ho.
  - apply H in Ho as [Ho|[_ Ho]%list_elem_of_filter]; [by left|].
    do 3 right.
    apply all_potential_distractors_elem in Ho as (s' & Hs' & Ho).
    apply valid_words_elem in Ho as (Hbl & w & Hw & ->).
    split; [done|]. by exists s', w.
  - rewrite Hp, !elem_of_cons in Ho.
    destruct Ho as [->|[->|[->|Ho%elem_of_nil]]]; auto. done.
Qed.

Lemma options_come_from_the_text_witness :
  generate_quiz sample_draw 20 sample_text 3 0%nat = Ok (sample_quiz, 21%nat)
  ∧ Forall (λ q, ∀ o, o ∈ options q →
              o = correct_answer q
              ∨ o = "Not " +:+ correct_answer q
              ∨ o = "None of the above"
              ∨ (is_blankable o = true
                 ∧ ∃ sentence w,
                     sentence ∈ extract_key_points sample_text (3 * 3)
                     ∧ w ∈ Py.split sentence
                     ∧ o = strip_punctuation w)) sample_quiz.
Proof.
  assert (H : generate_quiz sample_draw 20 sample_text 3 0%nat
              = Ok (sample_quiz, 21%nat)) by (by vm_compute).
  split; [exact H|].
  exact (options_come_from_the_text _ _ _ _ _ _ _ H).
Defined.

(** X11: On the local path the handler of [generate_quiz] is never taken: the
    outcome is never a raised exception, and a returned quiz never holds the
    placeholder question. *)
Theorem quiz_handler_unused (draw : nat → nat) (fuel : nat)
    (text : string) (num_questions : Z) (cur : nat) :
  match generate_quiz draw fuel text num_questions cur with
  | Ok (quiz, _) => placeholder_question ∉ quiz
  | Raise => False
  | OutOfFuel => True
  end.
Proof.
  rewrite generate_quiz_local.
  destruct (quiz_loop _ _ _ _ _ _ _ _) as [[quiz cur']| |] eqn:E; [| |done].
  - apply quiz_loop_blanks in E as (new & ss & -> & _ & Hb & _).
    rewrite app_nil_l. intros Hin.
    apply list_elem_of_lookup in Hin as [i Hi].
    destruct (Forall2_lookup_r _ _ _ _ _ Hb Hi) as (s & _ & Hs).
    by destruct Hs as (? & ? & _ & _ & Hbl & _).
  - by apply quiz_loop_no_raise in E.
Qed.

(** X12: [generate_quiz] returns the empty quiz, without drawing from the random
    source, when no question is asked for, or when no candidate sentence has
    both 8 words and a word that can be blanked. *)
Theorem quiz_empty_without_material (draw : nat → nat) (fuel : nat)
    (text : string) (num_questions : Z) (cur : nat) :
  num_questions ≤ 0
  ∨ Forall (λ s, (length (Py.split s) < 8)%nat
                 ∨ blank_candidates (Py.split s) = [])
      (extract_key_points text (num_questions * 3)) →
  generate_quiz draw fuel text num_questions cur = Ok ([], cur).
Proof.
  rewrite generate_quiz_local.
  intros [Hn|Hs]; [by apply quiz_loop_none_wanted|by apply quiz_loop_skips].
Qed.

Lemma quiz_empty_without_material_witness :
  generate_quiz sample_draw 0
    "Short sentences never make good quiz questions. The the the the the the the the the the."
    5 0%nat
  = Ok ([], 0%nat).
Proof.
  apply quiz_empty_without_material. right.
  vm_compute extract_key_points.
  repeat first
    [ apply List.Forall_nil
    | apply List.Forall_cons; [first [left; vm_compute; lia | right; by vm_compute]|] ].
Defined.

(** * The preview of a summary *)

Section PreviewFacts.

Local Open Scope nat_scope.

Lemma substring_0_length n s :
  String.length (String.substring 0 n s) = Nat.min n (String.length s).
Proof.
  revert s. induction n as [|n IH]; intros [|c s]; simpl; try done.
  by rewrite IH.
Qed.

Lemma substring_0_all n s :
  String.length s ≤ n → String.substring 0 n s = s.
Proof.
  revert s. induction n as [|n IH]; intros [|c s]; simpl; try done; [lia|].
  intros H. rewrite IH; [done|lia].
Qed.

Lemma substring_0_prefix n s :
  String.prefix (String.substring 0 n s) s = true.
Proof.
  revert s. induction n as [|n IH]; intros [|c s]; simpl; try done.
  rewrite IH. by destruct (ascii_dec c c).
Qed.

End PreviewFacts.

(** X16: The preview of a lecture never exceeds 103 characters and starts with a
    prefix of the summary: a summary of at most 100 characters is shown
    whole, a longer one is cut to its first 100 characters followed by three
    dots, and a document without a summary has the empty preview. *)
Theorem summary_preview_bounded (lecture : gmap string string) :
  let summary := default EmptyString (lecture !! "summary") in
  (String.length (summary_preview lecture) ≤ 103)%nat
  ∧ ((String.length summary ≤ 100)%nat → summary_preview lecture = summary)
  ∧ ((100 < String.length summary)%nat →
     ∃ head, String.length head = 100%nat
             ∧ String.prefix head summary = true
             ∧ summary_preview lecture = head +:+ "...")
  ∧ (lecture !! "summary" = None → summary_preview lecture = EmptyString).
Proof.
  intros summary. unfold summary_preview. fold summary.
  destruct (Nat.ltb_spec 100 (String.length summary)) as [Hlong|Hshort].
  - repeat split.
    + rewrite app_length, substring_0_length.
      change (String.length "...") with 3%nat. lia.
    + lia.
    + intros _. exists (String.substring 0 100 summary).
      rewrite substring_0_length, substring_0_prefix. split; [lia|done].
    + intros H. unfold summary in Hlong. rewrite H in Hlong. simpl in Hlong. lia.
  - repeat split.
    + rewrite substring_0_length. lia.
    + intros _. by apply substring_0_all.
    + lia.
    + intros H. unfold summary. by rewrite H.
Qed.

(** * The clean-up of a transcript *)

Section WordFacts.

Local Open Scope nat_scope.

Lemma string_app_assoc s t u : (s +:+ t) +:+ u = s +:+ (t +:+ u).
Proof. induction s as [|c s IH]; [done|]. by rewrite !app_cons, IH. Qed.

Lemma string_app_nil_r s : s +:+ "" = s.
Proof. induction s as [|c s IH]; [done|]. by rewrite app_cons, IH. Qed.

Lemma no_space_app s t :
  no_space (s +:+ t) = no_space s && no_space t.
Proof.
  induction s as [|c s IH]; [done|]. rewrite app_cons. simpl.
  rewrite IH. by destruct (Py.is_space c).
Qed.

Lemma split_words_ok s : words_ok (Py.split s).
Proof.
  unfold words_ok.
  induction s as [|c r IH]; [constructor|].
  rewrite split_cons.
  destruct (Py.is_space c) eqn:Ec; [done|].
  assert (Hc : String c "" ≠ "" ∧ no_space (String c "") = true)
    by (split; [done|simpl; by rewrite Ec]).
  destruct r as [|c' r']; [by apply Forall_singleton|].
  destruct (Py.is_space c'); [by constructor|].
  destruct (Py.split (String c' r')) as [|w ws]; [by apply Forall_singleton|].
  apply Forall_cons in IH as [[_ Hw] Hws]. constructor; [|done].
  split; [done|]. simpl. by rewrite Ec, Hw.
Qed.

Lemma split_word w :
  w ≠ "" → no_space w = true → Py.split w = [w].
Proof.
  induction w as [|c w IH]; [done|]. intros _ Hw.
  simpl in Hw. apply andb_true_iff in Hw as [Hc Hw].
  apply negb_true_iff in Hc. rewrite split_cons, Hc.
  destruct w as [|c' w']; [done|].
  assert (Py.is_space c' = false) as ->.
  { simpl in Hw. apply andb_true_iff in Hw as [Hc' _]. by apply negb_true_iff. }
  by rewrite IH.
Qed.

Lemma split_word_then_space w r :
  w ≠ "" → no_space w = true →
  Py.split (w +:+ String " " r) = w :: Py.split r.
Proof.
  induction w as [|c w IH]; [done|]. intros _ Hw.
  simpl in Hw. apply andb_true_iff in Hw as [Hc Hw].
  apply negb_true_iff in Hc. rewrite app_cons, split_cons, Hc.
  destruct w as [|c' w'].
  - change ("" +:+ String " " r) with (String " " r).
    cbn [Py.is_space]. rewrite (split_cons " " r). done.
  - rewrite app_cons.
    assert (Py.is_space c' = false) as ->.
    { simpl in Hw. apply andb_true_iff in Hw as [Hc' _]. by apply negb_true_iff. }
    rewrite <- app_cons, IH by done. done.
Qed.

(** Splitting undoes joining with single spaces. *)
Lemma split_join ws : words_ok ws → Py.split (Py.join " " ws) = ws.
Proof.
  induction 1 as [|w ws [Hw1 Hw2] Hws IH]; [done|].
  destruct ws as [|w' ws'].
  - by apply split_word.
  - change (Py.join " " (w :: w' :: ws'))
      with (w +:+ String " " (Py.join " " (w' :: ws'))).
    by rewrite split_word_then_space, IH.
Qed.

Lemma join_snoc ws w s :
  Py.join " " (ws ++ [w]) +:+ s = Py.join " " (ws ++ [w +:+ s]).
Proof.
  induction ws as [|a ws IH]; [done|].
  destruct ws as [|b ws'].
  - simpl. by rewrite !string_app_assoc.
  - change (Py.join " " ((a :: b :: ws') ++ [w]))
      with (a +:+ " " +:+ Py.join " " ((b :: ws') ++ [w])).
    change (Py.join " " ((a :: b :: ws') ++ [w +:+ s]))
      with (a +:+ " " +:+ Py.join " " ((b :: ws') ++ [w +:+ s])).
    by rewrite !string_app_assoc, IH.
Qed.

Lemma join_cons_tail ws :
  ∃ tail, ∀ u, Py.join " " (u :: ws) = u +:+ tail.
Proof.
  destruct ws as [|b ws'].
  - exists "". intros u. simpl. by rewrite string_app_nil_r.
  - by exists (" " +:+ Py.join " " (b :: ws')).
Qed.

End WordFacts.

Section CleanTranscript.

Local Open Scope nat_scope.

Variable upper : ascii → string.

Lemma last_char_None s : Py.last_char s = None → s = "".
Proof.
  induction s as [|c s IH]; [done|]. simpl.
  destruct s as [|c' s']; [done|]. intros H. by apply IH in H.
Qed.

Lemma clean_transcript_ends text :
  clean_transcript upper text = ""
  ∨ Py.endswith is_terminator (clean_transcript upper text) = true.
Proof.
  unfold clean_transcript. cbv zeta.
  set (t := match Py.join " " (Py.split text) with
            | "" => Py.join " " (Py.split text)
            | String c r => upper c +:+ r
            end).
  destruct (Py.last_char t) as [c|] eqn:E.
  - right. destruct (is_terminator c) eqn:Ec; simpl.
    + unfold Py.endswith. by rewrite E.
    + by rewrite endswith_snoc.
  - left. by apply last_char_None.
Qed.

(** The upper-case form of a character that is not whitespace is not empty
    and holds no whitespace. *)
Hypothesis upper_word :
  ∀ c, Py.is_space c = false → upper c ≠ "" ∧ no_space (upper c) = true.

Lemma clean_transcript_words text :
  ∃ ws,
    words_ok ws
    ∧ length ws = length (Py.split text)
    ∧ clean_transcript upper text = Py.join " " ws
    ∧ (clean_transcript upper text = ""
       ∨ ∃ c c' r rest,
           Py.is_space c = false ∧ upper c = String c' r
           ∧ clean_transcript upper text = String c' rest).
Proof.
  unfold clean_transcript. cbv zeta.
  pose proof (split_words_ok text) as Hok.
  destruct (Py.split text) as [|w1 ws'] eqn:Esplit.
  { exists []. split; [constructor|]. do 2 (split; [done|]). by left. }
  apply Forall_cons in Hok as [[Hw1 Hs1] Hok'].
  destruct w1 as [|c r1]; [done|].
  simpl in Hs1. apply andb_true_iff in Hs1 as [Hc Hr1].
  apply negb_true_iff in Hc.
  destruct (join_cons_tail ws') as [tail Htail].
  rewrite (Htail (String c r1)), app_cons.
  destruct (upper_word c Hc) as [Hne Hns].
  destruct (upper c) as [|c' r] eqn:Eu; [done|].
  set (w1' := String c' r +:+ r1).
  assert (Hw1' : w1' ≠ "" ∧ no_space w1' = true).
  { split; [done|]. unfold w1'. by rewrite no_space_app, Hns, Hr1. }
  assert (Ht : String c' r +:+ r1 +:+ tail = Py.join " " (w1' :: ws')).
  { rewrite Htail. unfold w1'. by rewrite string_app_assoc. }
  rewrite Ht.
  destruct (Py.last_char (Py.join " " (w1' :: ws'))) as [cl|] eqn:El.
  2: { exists (w1' :: ws'). split; [by constructor|]. do 2 (split; [done|]).
       right. exists c, c', r, (r +:+ r1 +:+ tail). by rewrite <- Ht, app_cons. }
  destruct (is_terminator cl); cbn [negb].
  { exists (w1' :: ws'). split; [by constructor|]. do 2 (split; [done|]).
    right. exists c, c', r, (r +:+ r1 +:+ tail). by rewrite <- Ht, app_cons. }
  assert (∃ init wl, w1' :: ws' = init ++ [wl]) as (init & wl & Hlast).
  { destruct (w1' :: ws') as [|a l] eqn:E using rev_ind; [done|].
    by exists l, a. }
  assert (Hall : words_ok (init ++ [wl])).
  { rewrite <- Hlast. by constructor. }
  apply Forall_app in Hall as [Hinit [[Hwl1 Hwl2] _]%Forall_cons].
  exists (init ++ [wl +:+ "."]). split; [|split; [|split]].
  - apply Forall_app. split; [done|]. apply Forall_singleton.
    split; [by destruct wl|]. by rewrite no_space_app, Hwl2.
  - apply (f_equal length) in Hlast. rewrite !length_app in *.
    simpl in *. lia.
  - by rewrite Hlast, join_snoc.
  - right. exists c, c', r, ((r +:+ r1 +:+ tail) +:+ ".").
    by rewrite <- Ht, !app_cons.
Qed.

(** The first character of an upper-case form is its own upper-case form. *)
Hypothesis upper_stable :
  ∀ c c' r, Py.is_space c = false → upper c = String c' r →
            upper c' = String c' "".

Lemma clean_transcript_fixed text :
  clean_transcript upper (clean_transcript upper text)
  = clean_transcript upper text.
Proof.
  destruct (clean_transcript_words text) as (ws & Hok & _ & Hj & Hshape).
  pose proof (clean_transcript_ends text) as Hend.
  set (u := clean_transcript upper text) in *.
  unfold clean_transcript at 1. cbv zeta.
  rewrite Hj, split_join, <- Hj by done.
  destruct Hshape as [Hu|(c & c' & r & rest & Hc & Hup & Hu)].
  { by rewrite Hu. }
  destruct Hend as [Hend|Hend]; [by rewrite Hend in Hu|].
  rewrite Hu. rewrite (upper_stable c c' r Hc Hup). rewrite <- Hu.
  change ("" +:+ ?x) with x.
  replace (String c' "" +:+ rest) with u by (by rewrite Hu).
  unfold Py.endswith in Hend.
  destruct (Py.last_char u) as [cl|]; [|done]. by rewrite Hend.
Qed.

End CleanTranscript.

(** X13: A cleaned transcript is empty or ends in a full stop, an exclamation mark
    or a question mark, however upper-casing acts; a text without words is
    cleaned to the empty string. *)
Theorem cleaned_transcript_ends_a_sentence (upper : ascii → string)
    (text : string) :
  (clean_transcript upper text = ""
   ∨ Py.endswith is_terminator (clean_transcript upper text) = true)
  ∧ (Py.split text = [] → clean_transcript upper text = "").
Proof.
  split; [apply clean_transcript_ends|].
  intros H. unfold clean_transcript. by rewrite H.
Qed.

(** X14: A cleaned transcript has its words separated by single spaces, with no
    whitespace before the first or after the last, and as many words as the
    raw text. *)
Theorem cleaned_transcript_spacing (upper : ascii → string) (text : string) :
  (∀ c, Py.is_space c = false → upper c ≠ "" ∧ no_space (upper c) = true) →
  Py.join " " (Py.split (clean_transcript upper text))
  = clean_transcript upper text
  ∧ length (Py.split (clean_transcript upper text)) = length (Py.split text).
Proof.
  intros H.
  destruct (clean_transcript_words upper H text) as (ws & Hok & Hlen & Hj & _).
  by rewrite Hj, split_join.
Qed.

Lemma cleaned_transcript_spacing_witness :
  Py.join " " (Py.split (clean_transcript upper_ascii "  the  cell divides   quickly "))
  = clean_transcript upper_ascii "  the  cell divides   quickly "
  ∧ length (Py.split (clean_transcript upper_ascii "  the  cell divides   quickly "))
    = length (Py.split "  the  cell divides   quickly ").
Proof.
  apply (cleaned_transcript_spacing upper_ascii).
  by intros [[] [] [] [] [] [] [] []].
Defined.

(** X15: Cleaning a transcript twice gives the same text as cleaning it once. *)
Theorem clean_transcript_idempotent (upper : ascii → string) (text : string) :
  (∀ c, Py.is_space c = false → upper c ≠ "" ∧ no_space (upper c) = true) →
  (∀ c c' r, Py.is_space c = false → upper c = String c' r →
             upper c' = String c' "") →
  clean_transcript upper (clean_transcript upper text)
  = clean_transcript upper text.
Proof. intros H1 H2. by apply clean_transcript_fixed. Qed.

Lemma clean_transcript_idempotent_witness :
  clean_transcript upper_ascii
    (clean_transcript upper_ascii "  the  cell divides quickly ")
  = clean_transcript upper_ascii "  the  cell divides quickly ".
Proof.
  apply (clean_transcript_idempotent upper_ascii).
  - by intros [[] [] [] [] [] [] [] []].
  - intros [[] [] [] [] [] [] [] []] c' r _ H; vm_compute in H;
      injection H as <- <-; reflexivity.
Defined.

(** * Few sentences *)

(** X5: When the text has qualifying sentences, and no more of them than
    [num_points], every one of them is returned, in the order of the text,
    followed by a full stop: nothing is ranked and nothing is dropped. *)
Theorem all_sentences_kept (text : string) (num_points : Z) :
  qualifying_sentences text ≠ [] →
  Z.of_nat (length (qualifying_sentences text)) ≤ num_points →
  extract_key_points text num_points
  = (λ s, s +:+ ".") <$> qualifying_sentences text.
Proof.
  intros Hne Hle. unfold extract_key_points.
  destruct (qualifying_sentences text) as [|s0 ss] eqn:E; [done|].
  rewrite <- E in Hle |- *. rewrite (proj2 (Z.leb_le _ _)) by done.
  apply list_fmap_ext. intros i s Hs.
  by eapply add_period_qualifying, list_elem_of_lookup_2.
Qed.

Lemma all_sentences_kept_witness :
  extract_key_points sample_text 7
  = (λ s, s +:+ ".") <$> qualifying_sentences sample_text.
Proof.
  apply all_sentences_kept; [by vm_compute|by vm_compute].
Defined.
